(** * Gmail-CalendarAgent: agent loop, delegation router and conversation
      state machine

    A shallow embedding of the Python sources

    - [src/agents/gmail_agent.py]       (GmailAgent)
    - [src/agents/calendar_agent.py]    (CalendarAgent)
    - [src/agents/orchestration_agent.py] (ConversationalOrchestrator)
    - [src/tools/gmail_tools.py]        (GmailApplyLabelTool, GmailGetEmailTool)

    Python [str] values are Rocq [string]s (UTF-8 bytes).  Everything that
    lives outside the Python process (the language model, the Google
    services, the wall clock) is a world state [W] that is threaded
    explicitly through every call. A Python call that may raise returns an
    [Outcome]; a loop without an iteration bound takes fuel. *)

From Stdlib Require Import String Ascii List Bool Arith Lia.
From Stdlib Require Import ZArith DecimalString.
Import ListNotations.
Open Scope string_scope.
Open Scope list_scope.

Set Implicit Arguments.

(* ================================================================== *)
(** ** Python strings *)
(* ================================================================== *)

Module PyStr.

(** [needle in hay] on [str]: some position of [hay] starts with
    [needle]. *)
Fixpoint contains (needle hay : string) : bool :=
  if String.prefix needle hay then true
  else match hay with
       | EmptyString => false
       | String _ rest => contains needle rest
       end.

(** [sep.join(parts)]. *)
Definition join (sep : string) (parts : list string) : string :=
  String.concat sep parts.

(** The double quote, which the prompt texts contain. *)
Definition dq : string := String (ascii_of_nat 34) EmptyString.

(** The line feed of the f-strings. *)
Definition nl : string := String (ascii_of_nat 10) EmptyString.

(** The case mappings [str.lower] and [str.title] follow the Unicode
    tables of the interpreter; the development is parametric in them. *)
Class CaseOps : Type := {
  lower : string -> string;
  title : string -> string
}.

(** *** The ASCII instance *)

Definition is_upper (c : ascii) : bool :=
  let n := nat_of_ascii c in ((65 <=? n) && (n <=? 90))%nat.

Definition is_lower (c : ascii) : bool :=
  let n := nat_of_ascii c in ((97 <=? n) && (n <=? 122))%nat.

Definition to_lower (c : ascii) : ascii :=
  if is_upper c then ascii_of_nat (nat_of_ascii c + 32) else c.

Definition to_upper (c : ascii) : ascii :=
  if is_lower c then ascii_of_nat (nat_of_ascii c - 32) else c.

Fixpoint ascii_lower (s : string) : string :=
  match s with
  | EmptyString => EmptyString
  | String c rest => String (to_lower c) (ascii_lower rest)
  end.

(** [str.title]: a cased character is upper-cased when the character
    before it is not cased and lower-cased otherwise. *)
Fixpoint ascii_title_from (previous_is_cased : bool) (s : string) : string :=
  match s with
  | EmptyString => EmptyString
  | String c rest =>
      if is_upper c || is_lower c then
        String (if previous_is_cased then to_lower c else to_upper c)
               (ascii_title_from true rest)
      else String c (ascii_title_from false rest)
  end.

Definition ascii_title (s : string) : string := ascii_title_from false s.

Definition AsciiCase : CaseOps :=
  {| lower := ascii_lower; title := ascii_title |}.

End PyStr.

Import PyStr.

(* ================================================================== *)
(** ** Outcomes of Python calls *)
(* ================================================================== *)

(** A call either returns a value or raises an instance of [Exception],
    of which the callers only ever read [str(e)]. *)
Inductive Outcome (A : Type) : Type :=
| Returned (a : A)
| Raised (e : string).

Arguments Returned {A} a.
Arguments Raised {A} e.

(* ================================================================== *)
(** ** Messages (langchain_core.messages) *)
(* ================================================================== *)

Section Messages.

Variable Args : Type.

(** A tool call of an AI message: [tool_call["name"]],
    [tool_call["args"]], [tool_call["id"]]. *)
Record ToolCall : Type := {
  tc_name : string;
  tc_args : Args;
  tc_id : string
}.

Inductive Message : Type :=
| SystemMessage (content : string)
| HumanMessage (content : string)
| AIMessage (content : string) (tool_calls : list ToolCall)
| ToolMessage (content : string) (tool_call_id : string).

Definition content (m : Message) : string :=
  match m with
  | SystemMessage c | HumanMessage c | AIMessage c _ | ToolMessage c _ => c
  end.

Definition isSystemMessage (m : Message) : bool :=
  match m with SystemMessage _ => true | _ => false end.

Definition isHumanMessage (m : Message) : bool :=
  match m with HumanMessage _ => true | _ => false end.

Definition isAIMessage (m : Message) : bool :=
  match m with AIMessage _ _ => true | _ => false end.

Definition isToolMessage (m : Message) : bool :=
  match m with ToolMessage _ _ => true | _ => false end.

(** What a chat model answers: an AI message, its text and its tool
    calls. *)
Record Response : Type := {
  r_content : string;
  r_tool_calls : list ToolCall
}.

Definition as_message (r : Response) : Message :=
  AIMessage (r_content r) (r_tool_calls r).

End Messages.

Arguments SystemMessage {Args} content.
Arguments HumanMessage {Args} content.
Arguments ToolMessage {Args} content tool_call_id.

(* ================================================================== *)
(** ** The agent loop (gmail_agent.py, calendar_agent.py) *)
(* ================================================================== *)

Section AgentLoop.

Variables (W Args : Type).

(** A langchain tool as the loop sees it: [t.name] and [t.invoke(args)],
    which returns the tool's text or raises, and may change the remote
    service. *)
Record BaseTool : Type := {
  name : string;
  invoke : Args -> W -> Outcome string * W
}.

(** [ChatOllama]: [bound] lists the tool names given by [bind_tools];
    [answer] is the remote model. *)
Record ChatOllama : Type := {
  bound : list string;
  answer : list string -> list (Message Args) -> W
           -> Outcome (Response Args) * W
}.

Definition bind_tools (m : ChatOllama) (tools : list BaseTool) : ChatOllama :=
  {| bound := map name tools; answer := answer m |}.

Definition model_invoke (m : ChatOllama) (messages : list (Message Args))
    (w : W) : Outcome (Response Args) * W :=
  answer m (bound m) messages w.

(** The fields of [GmailAgent] and of [CalendarAgent] that the loop
    reads. *)
Record Agent : Type := {
  system_prompt : string;
  model : ChatOllama;
  tools : list BaseTool
}.

(** [add_tool]: [self.tools.append(tool)] and
    [self.model = self.model.bind_tools(self.tools)]. *)
Definition add_tool (a : Agent) (tool : BaseTool) : Agent :=
  let tools' := tools a ++ [tool] in
  {| system_prompt := system_prompt a;
     model := bind_tools (model a) tools';
     tools := tools' |}.

Definition get_tools (a : Agent) : list BaseTool := tools a.

(** What one call of [process_request] did, in order. *)
Inductive Event : Type :=
| ModelInvoked (history : list (Message Args))
| ToolInvoked (tool : string) (call : ToolCall Args).

(** The local list [messages], the world, and the calls made so far. *)
Record Run : Type := {
  messages : list (Message Args);
  world : W;
  events : list Event
}.

(** [next((t for t in self.tools if t.name == tool_call["name"]), None)] *)
Definition find_tool (ts : list BaseTool) (tool_name : string)
    : option BaseTool :=
  find (fun t => String.eqb (name t) tool_name) ts.

(** The body of [for tool_call in response.tool_calls]: a call whose
    tool is found is executed and answered by a [ToolMessage], with the
    output or with the text of the exception; [if tool:] has no [else],
    so a call whose tool is not found leaves [messages] as it is. *)
Definition run_tool_call (ts : list BaseTool) (tool_call : ToolCall Args)
    (st : Run) : Run :=
  match find_tool ts (tc_name tool_call) with
  | Some tool =>
      let (tool_output, w') := invoke tool (tc_args tool_call) (world st) in
      let tool_message :=
        match tool_output with
        | Returned out => ToolMessage out (tc_id tool_call)
        | Raised e =>
            ToolMessage ("Tool execution error: " ++ e) (tc_id tool_call)
        end in
      {| messages := messages st ++ [tool_message];
         world := w';
         events := events st ++ [ToolInvoked (name tool) tool_call] |}
  | None => st
  end.

Definition run_tool_calls (ts : list BaseTool)
    (calls : list (ToolCall Args)) (st : Run) : Run :=
  fold_left (fun st tool_call => run_tool_call ts tool_call st) calls st.

(** [while True:] of [process_request].  [None] when [fuel] rounds were
    not enough; an exception of [self.invoke] is outside every [try] and
    leaves the loop. *)
Fixpoint agent_loop (fuel : nat) (a : Agent) (st : Run)
    : option (Outcome string * Run) :=
  match fuel with
  | O => None
  | S fuel' =>
      let (response, w1) := model_invoke (model a) (messages st) (world st) in
      let ev := events st ++ [ModelInvoked (messages st)] in
      match response with
      | Raised e =>
          Some (Raised e,
                {| messages := messages st; world := w1; events := ev |})
      | Returned response =>
          let st1 := {| messages := messages st ++ [as_message response];
                        world := w1;
                        events := ev |} in
          match r_tool_calls response with
          | [] => Some (Returned (r_content response), st1)
          | _ :: _ =>
              agent_loop fuel' a
                (run_tool_calls (tools a) (r_tool_calls response) st1)
          end
      end
  end.

(** The list that seeds [messages]. *)
Definition seed (system : string) (request : string)
    : list (Message Args) :=
  [SystemMessage system; HumanMessage request].

End AgentLoop.

Arguments ModelInvoked {Args} history.
Arguments ToolInvoked {Args} tool call.

(* ================================================================== *)
(** ** GmailAgent (gmail_agent.py) *)
(* ================================================================== *)

Module GmailAgent.

(** [_get_system_prompt()]: a constant text. *)
Definition _get_system_prompt : string :=
  join nl
    [ "You are a helpful Gmail assistant specialized in email management and organization.";
      EmptyString;
      EmptyString;
      "    When asked to draft emails, follow this workflow:";
      "    1. Analyze the user's request to determine the email recipient, content and subject";
      "    2. Use 'draft_email' to create a draft email";
      EmptyString;
      "    When asked to search and label emails, follow this workflow:";
      "    1. Use 'search_emails' to find relevant emails (returns email IDs)";
      "    2. Use 'get_email_content' to retrieve the content of each email using the IDs";
      "    3. Analyze the email content to determine appropriate categorization";
      "    4. Use 'apply_email_label' to apply the appropriate label to each email";
      EmptyString;
      ("    Available predefined labels: " ++ dq ++ "Spam" ++ dq ++ ", " ++ dq ++ "News" ++ dq ++ ", " ++ dq ++ "University" ++ dq ++ ", " ++ dq ++ "Financial" ++ dq ++ ", " ++ dq ++ "Personal" ++ dq ++ ", " ++ dq ++ "Work" ++ dq ++ ", " ++ dq ++ "Promotions" ++ dq ++ ", " ++ dq ++ "Meeting" ++ dq ++ ", " ++ dq ++ "Other" ++ dq)%string;
      EmptyString;
      "    When asked to search for specific email content, follow this workflow:";
      "    1. Use 'search_emails' to find relevant emails (returns email IDs)";
      "    2. Use 'get_email_content' to retrieve the content of each email using the IDs";
      "    3. Analyze the email content to determine if it matches the user's request";
      EmptyString;
      "    Important guidelines:";
      "    - Always examine email content before applying labels to ensure accurate categorization";
      "    - When search returns multiple emails, process each one individually";
      ("    - Parse email IDs carefully from search results (e.g., " ++ dq ++ "Found 3 emails with IDs: abc123, def456" ++ dq ++ " → use " ++ dq ++ "abc123" ++ dq ++ ", " ++ dq ++ "def456" ++ dq ++ ")")%string;
      "    - Be specific about what actions were taken on each email";
      "    - If an email doesn't clearly fit a category, explain why and suggest the best match";
      EmptyString;
      "    Always be thorough and accurate" ].

Section Defs.

Variables (W Args : Type).

(** [__init__]: the prompt is computed here, once, and stored. *)
Definition init (llm : ChatOllama W Args) : Agent W Args :=
  {| system_prompt := _get_system_prompt;
     model := llm;
     tools := [] |}.

(** What [process_request] puts in the system message:
    [self.system_prompt]. *)
Definition system_message (self : Agent W Args) (w : W) : string :=
  system_prompt self.

(** [process_request(request)]: the dict
    [{"role": "system", "content": ...}] reaches the model as a
    system message. *)
Definition process_request (fuel : nat) (self : Agent W Args)
    (request : string) (w : W) : option (Outcome string * Run W Args) :=
  agent_loop fuel self
    {| messages := seed Args (system_message self w) request;
       world := w;
       events := [] |}.

(** [create_gmail_agent]: a new agent, then [add_tool] for each tool
    of [create_gmail_tools]. *)
Definition create_gmail_agent (llm : ChatOllama W Args)
    (tools : list (BaseTool W Args)) : Agent W Args :=
  fold_left (@add_tool W Args) tools (init llm).

End Defs.

End GmailAgent.

(* ================================================================== *)
(** ** CalendarAgent (calendar_agent.py) *)
(* ================================================================== *)

Module CalendarAgent.

Section Defs.

Variables (W Args : Type).

(** [datetime.now().strftime("%A, %B %d, %Y at %I:%M %p")] read in the
    world [w]. *)
Variable strftime_now : W -> string.

(** [_get_system_prompt()]: the text carries the current date and
    time. *)
Definition _get_system_prompt (w : W) : string :=
  let current_datetime := strftime_now w in
  join nl
    [ "You are a helpful Google Calendar assistant specialized in managing calendar events.";
      EmptyString;
      ("Current date and time: " ++ current_datetime)%string;
      EmptyString;
      "When asked to create events, follow this workflow:";
      "1. Parse the user's request to extract event details (title, date/time, location, description)";
      "2. Use 'create_calendar_event' to create the event";
      "3. Confirm creation with the event ID and link";
      EmptyString;
      "When asked to find/search events, follow this workflow:";
      "1. Use 'search_calendar_events' to find events based on text or time range";
      "2. If needed, use 'get_calendar_event' to get full details of specific events";
      "3. Present the results clearly to the user";
      EmptyString;
      "When asked to update events, follow this workflow:";
      "1. Use 'search_calendar_events' to find the event if ID not provided";
      "2. Use 'update_calendar_event' to modify the event details";
      "3. Confirm the changes made";
      EmptyString;
      "When asked to delete events, follow this workflow:";
      "1. Use 'search_calendar_events' to find the event if ID not provided";
      "2. Optionally use 'get_calendar_event' to confirm it's the right event";
      "3. Use 'delete_calendar_event' to remove the event";
      "4. Confirm deletion";
      EmptyString;
      "Important guidelines:";
      "- Be smart about parsing dates and times from natural language using the current date/time as reference";
      "- If time is not specified, ask if it should be an all-day event";
      "- Always confirm successful operations with relevant details";
      "- When multiple events match a search, help the user identify the correct one";
      "- Be clear about what actions were taken";
      EmptyString;
      "Be helpful, accurate, and efficient in managing calendar events." ].

(** [__init__] stores a prompt too, computed when the agent is built. *)
Definition init (llm : ChatOllama W Args) (w : W) : Agent W Args :=
  {| system_prompt := _get_system_prompt w;
     model := llm;
     tools := [] |}.

(** What [process_request] puts in the system message: a new call of
    [_get_system_prompt()]; [self.system_prompt] is not read. *)
Definition system_message (self : Agent W Args) (w : W) : string :=
  _get_system_prompt w.

Definition process_request (fuel : nat) (self : Agent W Args)
    (request : string) (w : W) : option (Outcome string * Run W Args) :=
  agent_loop fuel self
    {| messages := seed Args (system_message self w) request;
       world := w;
       events := [] |}.

(** [create_calendar_agent], called in the world [w]. *)
Definition create_calendar_agent (llm : ChatOllama W Args)
    (tools : list (BaseTool W Args)) (w : W) : Agent W Args :=
  fold_left (@add_tool W Args) tools (init llm w).

End Defs.

End CalendarAgent.

(* ================================================================== *)
(** ** ConversationalOrchestrator (orchestration_agent.py) *)
(* ================================================================== *)

Module Orchestration.

Local Open Scope string_scope.

Section Defs.

Context {Case : CaseOps}.
Variables (W Args : Type).

(** [OrchestrationState], also the shape of the dict a node returns
    (every node sets all four keys). *)
Record OrchestrationState : Type := {
  messages : list (Message Args);
  current_task : option string;
  delegated_to : option string;
  task_complete : bool
}.

(** A sub-agent is any object with [process_request(task)]; the call
    returns, raises, or does not come back ([None]). *)
Definition SubAgent : Type :=
  option string -> W -> option (Outcome string * W).

(** The value of [self.sub_agents[name]]. *)
Record SubAgentConfig : Type := {
  agent : SubAgent;
  triggers : list string
}.

(** A [dict] with [str] keys, in insertion order. *)
Definition dict (V : Type) : Type := list (string * V).

Fixpoint dict_get (V : Type) (d : dict V) (k : string) : option V :=
  match d with
  | [] => None
  | (k', v) :: rest => if String.eqb k' k then Some v else dict_get rest k
  end.

(** [d[k] = v]: a key that is present keeps its place. *)
Fixpoint dict_set (V : Type) (d : dict V) (k : string) (v : V) : dict V :=
  match d with
  | [] => [(k, v)]
  | (k', v') :: rest =>
      if String.eqb k' k then (k', v) :: rest
      else (k', v') :: dict_set rest k v
  end.

(** [self.graph]: the names for which [build_graph] made a
    [delegate_<name>] node. *)
Record ConversationalOrchestrator : Type := {
  model : ChatOllama W Args;
  sub_agents : dict SubAgentConfig;
  memory : dict OrchestrationState;
  graph : option (list string)
}.

Definition init (llm : ChatOllama W Args) : ConversationalOrchestrator :=
  {| model := llm; sub_agents := []; memory := []; graph := None |}.

Definition add_sub_agent (self : ConversationalOrchestrator)
    (name : string) (a : SubAgent) (trigger_list : list string)
    : ConversationalOrchestrator :=
  {| model := model self;
     sub_agents := dict_set (sub_agents self) name
                     {| agent := a; triggers := trigger_list |};
     memory := memory self;
     graph := graph self |}.

Definition _get_system_prompt (self : ConversationalOrchestrator) : string :=
  let agent_descriptions :=
    map (fun '(name, config) =>
           let triggers :=
             join ", " (map (fun t => "'" ++ t ++ "'") (triggers config)) in
           "- " ++ name ++ ": handles tasks containing " ++ triggers)
        (sub_agents self) in
  let agents_list :=
    match agent_descriptions with
    | [] => "No specialized agents available"
    | _ :: _ => join nl agent_descriptions
    end in
  join nl
    [ "You are a helpful conversational assistant that can chat about any topic and delegate specialized tasks to sub-agents when needed.";
      EmptyString;
      "        Your capabilities:";
      "        1. Have natural conversations about any topic";
      "        2. Answer questions using your knowledge";
      "        3. Delegate to specialized agents when users ask for specific tasks";
      EmptyString;
      "        Available specialized agents:";
      ("        " ++ agents_list)%string;
      EmptyString;
      "        IMPORTANT: Only delegate to a specialized agent when the user explicitly asks for that specific task. ";
      "        For general questions or conversations, respond directly.";
      EmptyString;
      "        When you need to delegate:";
      "        - Set the task description clearly";
      "        - Indicate which agent should handle it";
      "        - Let the user know you're delegating";
      EmptyString;
      "        Otherwise, just have a friendly conversation!" ].

(** The inner loop of [_should_delegate]:
    [trigger.lower() in message_lower] for some trigger. *)
Definition any_trigger (message_lower : string) (config : SubAgentConfig)
    : bool :=
  existsb (fun trigger => contains (lower trigger) message_lower)
          (triggers config).

Fixpoint first_match (message_lower : string) (items : dict SubAgentConfig)
    : option string :=
  match items with
  | [] => None
  | (agent_name, config) :: rest =>
      if any_trigger message_lower config then Some agent_name
      else first_match message_lower rest
  end.

Definition _should_delegate (self : ConversationalOrchestrator)
    (user_message : string) : option string :=
  let message_lower := lower user_message in
  first_match message_lower (sub_agents self).

(** Truth value of an [Optional[str]]. *)
Definition truthy (o : option string) : bool :=
  match o with
  | None => false
  | Some s => negb (String.eqb s EmptyString)
  end.

Definition reply (text : string) : Message Args := AIMessage text [].

(** The dict returned when the task is handed over. *)
Definition delegating (task delegate_to : string) : OrchestrationState :=
  let agent_name := title delegate_to in
  let response_content :=
    "I'll help you with that " ++ agent_name
    ++ " task. Let me process your request..." ++ nl ++ nl
    ++ "Delegating to " ++ agent_name ++ " agent..." in
  {| messages := [reply response_content];
     current_task := Some task;
     delegated_to := Some delegate_to;
     task_complete := false |}.

(** The dict returned by every branch that ends the turn. *)
Definition finished (m : Message Args) : OrchestrationState :=
  {| messages := [m];
     current_task := None;
     delegated_to := None;
     task_complete := true |}.

Definition orchestrator_node (self : ConversationalOrchestrator)
    (state : OrchestrationState) (w : W)
    : Outcome OrchestrationState * W :=
  let msgs := messages state in
  match last (map Some msgs) None with
  | None => (Raised "list index out of range", w)
  | Some last_message =>
      let system_message := filter (@isSystemMessage Args) msgs in
      let msgs :=
        match system_message with
        | [] => SystemMessage (_get_system_prompt self) :: msgs
        | _ :: _ => msgs
        end in
      let converse :=
        let (response, w') := model_invoke (model self) msgs w in
        match response with
        | Returned response => (Returned (finished (as_message response)), w')
        | Raised e => (Raised e, w')
        end in
      match last_message with
      | HumanMessage text =>
          let delegate_to := _should_delegate self text in
          match delegate_to with
          | Some d =>
              if truthy delegate_to then (Returned (delegating text d), w)
              else converse
          | None => converse
          end
      | _ => converse
      end
  end.

(** [create_delegation_node(agent_name)]: the lookup of the agent is
    outside the [try]; whatever [process_request] raises is caught. *)
Definition delegation_node (self : ConversationalOrchestrator)
    (agent_name : string) (state : OrchestrationState) (w : W)
    : option (Outcome OrchestrationState * W) :=
  match dict_get (sub_agents self) agent_name with
  | None => Some (Raised ("'" ++ agent_name ++ "'"), w)
  | Some config =>
      let task := current_task state in
      match agent config task w with
      | None => None
      | Some (Returned result, w') =>
          let response_content :=
            title agent_name ++ " task completed:" ++ nl ++ nl ++ result in
          Some (Returned (finished (reply response_content)), w')
      | Some (Raised e, w') =>
          let error_content :=
            "Error processing " ++ title agent_name ++ " task: " ++ e in
          Some (Returned (finished (reply error_content)), w')
      end
  end.

Definition END : string := "__end__".

Definition should_continue (state : OrchestrationState) : string :=
  match delegated_to state with
  | Some d => if truthy (delegated_to state) then "delegate_" ++ d else END
  | None => END
  end.

(** [build_graph]: one [delegate_<name>] node per sub-agent registered
    so far; the entry point is [orchestrator]. *)
Definition build_graph (self : ConversationalOrchestrator)
    : ConversationalOrchestrator :=
  {| model := model self;
     sub_agents := sub_agents self;
     memory := memory self;
     graph := Some (map fst (sub_agents self)) |}.

(** How the graph merges a returned dict into the state: [messages] has
    the reducer [add_messages], which appends; the other keys are
    overwritten. *)
Definition add_messages (left right : list (Message Args))
    : list (Message Args) := (left ++ right)%list.

Definition write (state update : OrchestrationState) : OrchestrationState :=
  {| messages := add_messages (messages state) (messages update);
     current_task := current_task update;
     delegated_to := delegated_to update;
     task_complete := task_complete update |}.

Definition empty_state : OrchestrationState :=
  {| messages := [];
     current_task := None;
     delegated_to := None;
     task_complete := false |}.

(** [MemorySaver]: the checkpoint of a thread. *)
Definition checkpoint (self : ConversationalOrchestrator)
    (thread_id : string) : OrchestrationState :=
  match dict_get (memory self) thread_id with
  | Some saved => saved
  | None => empty_state
  end.

Definition save (self : ConversationalOrchestrator) (thread_id : string)
    (state : OrchestrationState) : ConversationalOrchestrator :=
  {| model := model self;
     sub_agents := sub_agents self;
     memory := dict_set (memory self) thread_id state;
     graph := graph self |}.

(** What one [self.graph.invoke(initial_state, config)] did. *)
Record Turn : Type := {
  outcome : Outcome OrchestrationState;
  visited : list string;
  after : ConversationalOrchestrator;
  world_after : W
}.

(** The compiled graph: the input is written over the checkpoint of the
    thread, [orchestrator] runs, the conditional edge [should_continue]
    picks [END] or a [delegate_<name>] node, whose edge leads to [END].
    A checkpoint is saved after the input and after each step; the
    edge is resolved within the step of [orchestrator], so a route to
    a node the graph does not have raises before that step is saved. *)
Definition graph_invoke (self : ConversationalOrchestrator)
    (nodes : list string) (initial_state : OrchestrationState)
    (thread_id : string) (w : W) : option Turn :=
  let state0 := write (checkpoint self thread_id) initial_state in
  let self0 := save self thread_id state0 in
  match orchestrator_node self state0 w with
  | (Raised e, w1) =>
      Some {| outcome := Raised e; visited := ["orchestrator"];
              after := self0; world_after := w1 |}
  | (Returned update, w1) =>
      let state1 := write state0 update in
      let self1 := save self0 thread_id state1 in
      let route := should_continue state1 in
      if String.eqb route END then
        Some {| outcome := Returned state1; visited := ["orchestrator"];
                after := self1; world_after := w1 |}
      else
        match find (fun n => String.eqb ("delegate_" ++ n) route) nodes with
        | None =>
            Some {| outcome := Raised ("'" ++ route ++ "'");
                    visited := ["orchestrator"];
                    after := self0; world_after := w1 |}
        | Some agent_name =>
            let path := ["orchestrator"; "delegate_" ++ agent_name] in
            match delegation_node self agent_name state1 w1 with
            | None => None
            | Some (Raised e, w2) =>
                Some {| outcome := Raised e; visited := path;
                        after := self1; world_after := w2 |}
            | Some (Returned update, w2) =>
                let state2 := write state1 update in
                Some {| outcome := Returned state2; visited := path;
                        after := save self1 thread_id state2;
                        world_after := w2 |}
            end
        end
  end.

Definition initial_state (message : string) : OrchestrationState :=
  {| messages := [HumanMessage message];
     current_task := None;
     delegated_to := None;
     task_complete := false |}.

(** The first part of [chat]: build the graph when there is none, and
    invoke it on the new message. *)
Definition turn (self : ConversationalOrchestrator)
    (message thread_id : string) (w : W) : option Turn :=
  let self := match graph self with
              | None => build_graph self
              | Some _ => self
              end in
  let nodes := match graph self with Some ns => ns | None => [] end in
  graph_invoke self nodes (initial_state message) thread_id w.

(** The last part of [chat]: the content of the last AI message. *)
Definition last_ai (result : OrchestrationState) : string :=
  let ai_messages := filter (@isAIMessage Args) (messages result) in
  match last (map Some ai_messages) None with
  | Some m => content m
  | None => "No response generated"
  end.

Definition chat (self : ConversationalOrchestrator)
    (message thread_id : string) (w : W)
    : option (Outcome string * ConversationalOrchestrator * W) :=
  match turn self message thread_id w with
  | None => None
  | Some t =>
      match outcome t with
      | Returned result => Some (Returned (last_ai result), after t, world_after t)
      | Raised e => Some (Raised e, after t, world_after t)
      end
  end.

Definition gmail_triggers : list string :=
  [ "email"; "gmail"; "draft"; "compose"; "send mail";
    "search mail"; "search email"; "label email";
    "categorize email"; "organize email"; "find email" ].

Definition calendar_triggers : list string :=
  [ "calendar"; "meeting"; "appointment"; "event"; "schedule";
    "book time"; "set up meeting"; "create event"; "add to calendar";
    "check calendar"; "free time"; "availability"; "busy";
    "reschedule"; "cancel meeting"; "update event"; "find meetings";
    "team standup"; "recurring meeting"; "all-day event" ].

Definition create_orchestrator_with_agents
    (gmail_agent calendar_agent : SubAgent) (llm : ChatOllama W Args)
    : ConversationalOrchestrator :=
  let orchestrator := init llm in
  let orchestrator :=
    add_sub_agent orchestrator "gmail" gmail_agent gmail_triggers in
  add_sub_agent orchestrator "calendar" calendar_agent calendar_triggers.

End Defs.

Arguments reply {Args} text.
Arguments delegating {Case Args} task delegate_to.
Arguments initial_state {Args} message.
Arguments empty_state {Args}.

End Orchestration.

(* ================================================================== *)
(** ** Gmail tools (gmail_tools.py) *)
(* ================================================================== *)

Module GmailTools.

Local Open Scope string_scope.

Definition DEFAULT_LABELS : list string :=
  [ "Spam"; "News"; "University"; "Financial"; "Personal"; "Work";
    "Promotions"; "Meeting"; "Other" ].

(** What the Google client raises: an [HttpError] with the status of
    its response, when it has one, or another [Exception]; both with
    their [str(e)]. *)
Inductive Error : Type :=
| HttpError (status : option nat) (text : string)
| OtherError (text : string).

Inductive Result (A : Type) : Type :=
| Ok (a : A)
| Fails (e : Error).

Arguments Ok {A} a.
Arguments Fails {A} e.

(** The requests the tools send with [.execute()]. *)
Inductive ApiCall : Type :=
| LabelsList
| MessagesModify (id : string) (addLabelIds : list string)
| MessagesGet (id : string) (format : string).

Definition is_modification (c : ApiCall) : bool :=
  match c with MessagesModify _ _ => true | _ => false end.

Record Label : Type := { l_name : string; l_id : string }.

Record Header : Type := { h_name : string; h_value : string }.

(** A message resource in [format='full']; [payload] keeps the parts
    and the body for [EmailHelper.parse_email_body]. *)
Record GmailMessage (Payload : Type) : Type := {
  m_id : string;
  m_headers : list Header;
  m_payload : Payload
}.

Record EmailData : Type := {
  e_id : string;
  e_subject : string;
  e_from : string;
  e_to : string;
  e_date : string;
  e_body : string
}.

(** [GmailBaseTool._handle_error] *)
Definition _handle_error (error : Error) (context : string) : string :=
  match error with
  | HttpError (Some status) text =>
      if Nat.eqb status 404 then "Error: Resource not found in " ++ context
      else if Nat.eqb status 403 then
        "Error: Permission denied for " ++ context
      else "API Error in " ++ context ++ ": " ++ text
  | HttpError None text => "API Error in " ++ context ++ ": " ++ text
  | OtherError text => "Error in " ++ context ++ ": " ++ text
  end.

(** The [TypeError] of calling [self._parse_email(message, include_body)],
    a method declared as [_parse_email(self, message)]. *)
Definition parse_email_TypeError : Error :=
  OtherError ("GmailGetEmailTool._parse_email() takes 2 positional "
              ++ "arguments but 3 were given").

Section Defs.

Context {Case : CaseOps}.

(** [R] is the state of the mailbox at Google. *)
Variables (R Payload : Type).

(** The remote service behind [self._service]. *)
Record Service : Type := {
  labels_list : R -> Result (list Label) * R;
  messages_modify : string -> list string -> R -> Result unit * R;
  messages_get : string -> string -> R -> Result (GmailMessage Payload) * R
}.

(** The mailbox together with the requests sent so far. *)
Record Gmail : Type := {
  remote : R;
  requests : list ApiCall
}.

Variable service : Service.

Definition execute (A : Type) (c : ApiCall) (run : R -> Result A * R)
    (g : Gmail) : Result A * Gmail :=
  let (r, remote') := run (remote g) in
  (r, {| remote := remote'; requests := (requests g ++ [c])%list |}).

(** [EmailHelper.parse_email_body(payload)]: base64 decoding of the
    text parts. *)
Variable parse_email_body : Payload -> Result string.

(** [GmailToolkit.__init__]: [allowed_labels or DEFAULT_LABELS]. *)
Definition toolkit_allowed_labels (allowed_labels : option (list string))
    : list string :=
  match allowed_labels with
  | None | Some [] => DEFAULT_LABELS
  | Some (l :: ls) => l :: ls
  end.

(** [GmailToolkit.get_label_id]: any exception gives [None]. *)
Definition get_label_id (label_name : string) (g : Gmail)
    : option string * Gmail :=
  let (results, g') := execute LabelsList (labels_list service) g in
  match results with
  | Ok labels =>
      (option_map l_id
         (find (fun label =>
                  String.eqb (lower (l_name label))
                             (lower label_name))
               labels),
       g')
  | Fails _ => (None, g')
  end.

(** [GmailApplyLabelTool]: the fields [_run] reads;
    [self.get_label_id] is the toolkit's method above. *)
Record GmailApplyLabelTool : Type := {
  allowed_labels : list string
}.

(** [label.lower() not in [l.lower() for l in self.allowed_labels]] *)
Definition not_allowed (self : GmailApplyLabelTool) (label : string) : bool :=
  negb (existsb (String.eqb (lower label))
                (map lower (allowed_labels self))).

Definition apply_label_run (self : GmailApplyLabelTool)
    (email_id label : string) (g : Gmail) : string * Gmail :=
  if not_allowed self label then
    ("Error: '" ++ label ++ "' is not an allowed label. Allowed labels are: "
     ++ join ", " (allowed_labels self), g)
  else
    let (found, g1) := get_label_id label g in
    match found with
    | None | Some EmptyString =>
        ("Error: Label '" ++ label ++ "' not found in Gmail. "
         ++ "Please ensure it exists in your Gmail account.", g1)
    | Some label_id =>
        let (result, g2) :=
          execute (MessagesModify email_id [label_id])
                  (messages_modify service email_id [label_id]) g1 in
        match result with
        | Ok _ =>
            ("Successfully applied label '" ++ label ++ "' to email "
             ++ email_id, g2)
        | Fails e =>
            (_handle_error e ("applying label to email " ++ email_id), g2)
        end
    end.

(** [next((h['value'] for h in headers if h['name'] == key), default)] *)
Definition header (headers : list Header) (key default : string) : string :=
  match find (fun h => String.eqb (h_name h) key) headers with
  | Some h => h_value h
  | None => default
  end.

(** [GmailGetEmailTool._parse_email(self, message)] *)
Definition _parse_email (message : GmailMessage Payload) : Result EmailData :=
  let headers := m_headers message in
  match parse_email_body (m_payload message) with
  | Ok body =>
      Ok {| e_id := m_id message;
            e_subject := header headers "Subject" "No Subject";
            e_from := header headers "From" "Unknown";
            e_to := header headers "To" "Unknown";
            e_date := header headers "Date" "Unknown";
            e_body := body |}
  | Fails e => Fails e
  end.

(** A call of [self._parse_email] with [given] arguments after [self]:
    the method takes one. *)
Definition call_parse_email (message : GmailMessage Payload) (given : nat)
    : Result EmailData :=
  match given with
  | 1 => _parse_email message
  | _ => Fails parse_email_TypeError
  end.

(** The text [_run] builds from the parsed email; [body[:500]] is the
    first 500 characters. *)
Definition format_email (email_data : EmailData) (include_body : bool)
    : string :=
  let result :=
    "Email ID: " ++ e_id email_data ++ nl
    ++ "From: " ++ e_from email_data ++ nl
    ++ "To: " ++ e_to email_data ++ nl
    ++ "Subject: " ++ e_subject email_data ++ nl
    ++ "Date: " ++ e_date email_data ++ nl in
  if include_body then
    result ++ nl ++ "Body:" ++ nl
    ++ substring 0 500 (e_body email_data) ++ "..."
  else result.

(** [GmailGetEmailTool._run]: the call passes [message] and
    [include_body]. *)
Definition get_email_run (email_id : string) (include_body : bool)
    (g : Gmail) : string * Gmail :=
  let context := "retrieving email " ++ email_id in
  let (fetched, g1) :=
    execute (MessagesGet email_id "full")
            (messages_get service email_id "full") g in
  match fetched with
  | Fails e => (_handle_error e context, g1)
  | Ok message =>
      match call_parse_email message 2 with
      | Fails e => (_handle_error e context, g1)
      | Ok email_data => (format_email email_data include_body, g1)
      end
  end.

End Defs.

End GmailTools.

(* ================================================================== *)
(** ** GmailSearchTool (gmail_tools.py) *)
(* ================================================================== *)

Module GmailSearch.

Import GmailTools.

Local Open Scope string_scope.

(** [str(n)] of a natural number. *)
Definition str_of_nat (n : nat) : string :=
  NilZero.string_of_uint (Nat.to_uint n).

(** The requests the search tool sends. *)
Inductive Request : Type :=
| ListMessages (q : string) (maxResults : Z)
| GetMetadata (id : string).

Section Defs.

Variable R : Type.

(** [messages().list] answers with the ids of the messages found
    ([results.get('messages', [])]); [messages().get] in
    [format='metadata'] answers with the headers of the payload. *)
Record Service : Type := {
  messages_list : string -> Z -> R -> Result (list string) * R;
  messages_get_metadata : string -> R -> Result (list Header) * R
}.

Record Mailbox : Type := {
  remote : R;
  sent : list Request
}.

Variable service : Service.

(** [s[:n]], the first [n] characters of [s]. *)
Variable first_chars : nat -> string -> string.

Definition execute (A : Type) (c : Request) (run : R -> Result A * R)
    (g : Mailbox) : Result A * Mailbox :=
  let (r, remote') := run (remote g) in
  (r, {| remote := remote'; sent := (sent g ++ [c])%list |}).

(** The entry of [email_info] for the message at index [i]: the bare
    [except:] turns any failure of the fetch into the short entry. *)
Definition describe (i : nat) (id : string) (fetched : Result (list Header))
    : string :=
  match fetched with
  | Ok headers =>
      let subject := header headers "Subject" "No Subject" in
      let sender := header headers "From" "Unknown" in
      "Email " ++ str_of_nat (i + 1) ++ ": ID=" ++ id
      ++ " | From: " ++ first_chars 40 sender
      ++ "... | Subject: " ++ first_chars 40 subject ++ "..."
  | Fails _ => "Email " ++ str_of_nat (i + 1) ++ ": ID=" ++ id
  end.

(** [for i, msg in enumerate(messages[:10])], from index [i] on. *)
Fixpoint describe_all (i : nat) (ids : list string) (g : Mailbox)
    : list string * Mailbox :=
  match ids with
  | [] => ([], g)
  | id :: rest =>
      let (fetched, g1) :=
        execute (GetMetadata id) (messages_get_metadata service id) g in
      let (email_info, g2) := describe_all (S i) rest g1 in
      (describe i id fetched :: email_info, g2)
  end.

(** [GmailSearchTool._run] *)
Definition search_run (query : string) (max_results : Z) (g : Mailbox)
    : string * Mailbox :=
  let (results, g1) :=
    execute (ListMessages query max_results)
            (messages_list service query max_results) g in
  match results with
  | Fails e => (_handle_error e "searching emails", g1)
  | Ok [] => ("No emails found matching the search criteria.", g1)
  | Ok (m :: ms) =>
      let messages := m :: ms in
      let (email_info, g2) := describe_all 0 (firstn 10 messages) g1 in
      ("Found " ++ str_of_nat (length messages)
       ++ " emails. Showing first " ++ str_of_nat (length email_info) ++ ":"
       ++ nl ++ join nl email_info ++ nl ++ nl
       ++ "Use the ID value (e.g., '18c7f8a5b2d3e4f5') with other tools.",
       g2)
  end.

End Defs.

End GmailSearch.

(* ================================================================== *)
(** ** Calendar tools (calendar_tools.py) *)
(* ================================================================== *)

Module CalendarTools.

Import GmailTools.

Local Open Scope string_scope.

Definition DEFAULT_TIMEZONE : string := "America/New_York".

(** [CalendarBaseTool._handle_error] *)
Definition _handle_error (error : Error) (context : string) : string :=
  match error with
  | HttpError (Some status) text =>
      if Nat.eqb status 404 then "Error: Resource not found in " ++ context
      else if Nat.eqb status 403 then
        "Error: Permission denied for " ++ context
        ++ ". Please check your calendar permissions."
      else if Nat.eqb status 400 then
        "Error: Invalid request in " ++ context
        ++ ". Please check the input parameters."
      else "API Error in " ++ context ++ ": " ++ text
  | HttpError None text => "API Error in " ++ context ++ ": " ++ text
  | OtherError text => "Error in " ++ context ++ ": " ++ text
  end.

(** The values of the event dicts: strings, dicts, lists, and the
    other values the service may put there. *)
#[local] Unset Elimination Schemes.

Inductive Json : Type :=
| JString (s : string)
| JObject (fields : list (string * Json))
| JArray (items : list Json)
| JOther (raw : string).

#[local] Set Elimination Schemes.

(** An event resource, a dict in insertion order. *)
Definition EventDict : Type := Orchestration.dict Json.

(** The requests the tools send. *)
Inductive Request : Type :=
| EventsInsert (body : EventDict)
| EventsGet (eventId : string)
| EventsUpdate (eventId : string) (body : EventDict)
| EventsDelete (eventId : string).

Definition is_write (c : Request) : bool :=
  match c with
  | EventsGet _ => false
  | _ => true
  end.

(** The truth value of an [Optional[str]] argument. *)
Definition given (o : option string) : option string :=
  match o with
  | Some (String c s) => Some (String c s)
  | _ => None
  end.

Section Defs.

(** [R] is the state of the calendar at Google; [DateTime] is
    [datetime.datetime]. *)
Variables (R DateTime : Type).

Record Service : Type := {
  events_insert : EventDict -> R -> Result EventDict * R;
  events_get : string -> R -> Result EventDict * R;
  events_update : string -> EventDict -> R -> Result EventDict * R;
  events_delete : string -> R -> Result unit * R
}.

Record Calendar : Type := {
  remote : R;
  sent : list Request
}.

Variable service : Service.

(** [datetime.strptime(date_str, fmt)], which raises [ValueError];
    [dt.hour], [dt.minute], [dt.strftime("%Y-%m-%d")]; and
    [pytz.timezone(timezone).localize(dt).isoformat()], which raises
    for a time zone that does not exist. *)
Variable strptime : string -> string -> Outcome DateTime.
Variables (hour minute : DateTime -> nat).
Variable strftime_date : DateTime -> string.
Variable localize_isoformat : string -> DateTime -> Outcome string.

(** [str(v)] of a value that is not a string. *)
Variable render : Json -> string.

Definition to_str (v : Json) : string :=
  match v with
  | JString s => s
  | _ => render v
  end.

Definition execute (A : Type) (c : Request) (run : R -> Result A * R)
    (g : Calendar) : Result A * Calendar :=
  let (r, remote') := run (remote g) in
  (r, {| remote := remote'; sent := (sent g ++ [c])%list |}).

Definition formats : list string :=
  ["%Y-%m-%d %H:%M"; "%Y-%m-%d"; "%m/%d/%Y %H:%M"; "%m/%d/%Y"].

(** The [for fmt in ...] loop: the first format that parses. *)
Fixpoint first_format (date_str : string) (fmts : list string)
    : option DateTime :=
  match fmts with
  | [] => None
  | fmt :: rest =>
      match strptime date_str fmt with
      | Returned dt => Some dt
      | Raised _ => first_format date_str rest
      end
  end.

(** [CalendarHelper.parse_datetime]: whatever goes wrong is raised
    again as a [ValueError] that names the string. *)
Definition parse_datetime (date_str timezone : string) : Outcome Json :=
  let failed (e : string) : Outcome Json :=
    Raised ("Error parsing datetime '" ++ date_str ++ "': " ++ e) in
  match first_format date_str formats with
  | None => failed ("Could not parse date: " ++ date_str)
  | Some dt =>
      if Nat.eqb (hour dt) 0 && Nat.eqb (minute dt) 0
         && negb (contains ":" date_str)
      then Returned (JObject [("date", JString (strftime_date dt))])
      else
        match localize_isoformat timezone dt with
        | Returned iso =>
            Returned (JObject [("dateTime", JString iso);
                               ("timeZone", JString timezone)])
        | Raised e => failed e
        end
  end.

(** [CreateEventTool._run] *)
Definition create_run (summary start_time end_time : string)
    (description location : option string)
    (attendees : option (list string)) (timezone : option string)
    (g : Calendar) : string * Calendar :=
  let context := "creating calendar event" in
  let timezone := match given timezone with
                  | Some tz => tz
                  | None => DEFAULT_TIMEZONE
                  end in
  match parse_datetime start_time timezone with
  | Raised e => (_handle_error (OtherError e) context, g)
  | Returned start =>
      match parse_datetime end_time timezone with
      | Raised e => (_handle_error (OtherError e) context, g)
      | Returned finish =>
          let event : EventDict :=
            [("summary", JString summary); ("start", start);
             ("end", finish)] in
          let event :=
            match given description with
            | Some d => Orchestration.dict_set event "description" (JString d)
            | None => event
            end in
          let event :=
            match given location with
            | Some l => Orchestration.dict_set event "location" (JString l)
            | None => event
            end in
          let event :=
            match attendees with
            | Some (a :: rest) =>
                Orchestration.dict_set event "attendees"
                  (JArray (map (fun email => JObject [("email", JString email)])
                               (a :: rest)))
            | _ => event
            end in
          let (result, g1) :=
            execute (EventsInsert event) (events_insert service event) g in
          match result with
          | Fails e => (_handle_error e context, g1)
          | Ok result =>
              match Orchestration.dict_get result "id" with
              | None => (_handle_error (OtherError "'id'") context, g1)
              | Some id =>
                  let link :=
                    match Orchestration.dict_get result "htmlLink" with
                    | Some l => to_str l
                    | None => "N/A"
                    end in
                  ("Successfully created event '" ++ summary
                   ++ "' with ID: " ++ to_str id ++ ". Link: " ++ link, g1)
              end
          end
      end
  end.

(** [event.get('summary', default)] in an f-string. *)
Definition summary_of (event : EventDict) (default : string) : string :=
  match Orchestration.dict_get event "summary" with
  | Some v => to_str v
  | None => default
  end.

(** One of the [if x is not None: event[key] = x] of the update. *)
Definition assign (key : string) (value : option Json) (event : EventDict)
    : EventDict :=
  match value with
  | Some v => Orchestration.dict_set event key v
  | None => event
  end.

(** [parse_datetime] of a time that was given. *)
Definition parse_given (time : option string) (timezone : string)
    : Outcome (option Json) :=
  match time with
  | None => Returned None
  | Some t =>
      match parse_datetime t timezone with
      | Returned v => Returned (Some v)
      | Raised e => Raised e
      end
  end.

(** [UpdateEventTool._run] *)
Definition update_run (event_id : string)
    (summary start_time end_time description location : option string)
    (timezone : string) (g : Calendar) : string * Calendar :=
  let context := "updating event " ++ event_id in
  let (fetched, g1) :=
    execute (EventsGet event_id) (events_get service event_id) g in
  match fetched with
  | Fails e => (_handle_error e context, g1)
  | Ok event =>
      let event := assign "summary" (option_map JString summary) event in
      let event :=
        assign "description" (option_map JString description) event in
      let event := assign "location" (option_map JString location) event in
      match parse_given start_time timezone with
      | Raised e => (_handle_error (OtherError e) context, g1)
      | Returned start =>
          let event := assign "start" start event in
          match parse_given end_time timezone with
          | Raised e => (_handle_error (OtherError e) context, g1)
          | Returned finish =>
              let event := assign "end" finish event in
              let (updated, g2) :=
                execute (EventsUpdate event_id event)
                        (events_update service event_id event) g1 in
              match updated with
              | Fails e => (_handle_error e context, g2)
              | Ok updated =>
                  ("Successfully updated event '"
                   ++ summary_of updated "Untitled"
                   ++ "' (ID: " ++ event_id ++ ")", g2)
              end
          end
      end
  end.


End Defs.

End CalendarTools.

(* ================================================================== *)
(** ** The interactive session (orchestration_agent.py, start_chat) *)
(* ================================================================== *)

Module ChatSession.

Import Orchestration.

Local Open Scope string_scope.

(** What [input("You: ")] meets on the terminal: a line, without its
    line feed, or Ctrl-C; at the end of the input it raises
    [EOFError]. *)
Inductive Input : Type :=
| Line (text : string)
| Interrupt.

(** [s * n] *)
Fixpoint times (s : string) (n : nat) : string :=
  match n with
  | O => EmptyString
  | S n' => s ++ times s n'
  end.

(** [print(text)] writes the text and a line feed. *)
Definition println (text : string) : string := text ++ nl.

Definition banner : list string :=
  [ println ("ðŸ¤– Orchestrator Chat Bot Started!");
    println (times "=" 50);
    println "I can help with general questions, Gmail tasks, and Calendar management.";
    println "Type 'exit', 'quit', or 'bye' to end the conversation.";
    println (times "=" 50 ++ nl) ].

Definition exit_words : list string := ["exit"; "quit"; "bye"; "q"].

Definition goodbye : string := println (nl ++ "Bot: Goodbye! Have a great day! ðŸ‘‹").

Definition interrupted : string := println (nl ++ nl ++ "Bot: Chat interrupted. Goodbye! ðŸ‘‹").

(** The two lines of [except Exception as e]. *)
Definition apology (e : string) : list string :=
  [ println (nl ++ "Bot: Sorry, I encountered an error: " ++ e);
    println ("Let's continue our conversation." ++ nl) ].

(** [str(e)] of the [EOFError] of [input]. *)
Definition EOFError : string := "EOF when reading a line".

Section Defs.

Context {Case : CaseOps}.
Variables (W Args : Type).

(** [str.strip] *)
Variable strip : string -> string.

(** How a session ended: what was written to the terminal, the
    orchestrator and the world it left, and the input not read. *)
Record Session : Type := {
  printed : list string;
  orchestrator : ConversationalOrchestrator W Args;
  world_left : W;
  unread : list Input
}.

(** [user_input.lower() in ['exit', 'quit', 'bye', 'q']] *)
Definition is_exit (user_input : string) : bool :=
  existsb (String.eqb (lower user_input)) exit_words.

(** [while True:] of [start_chat]. [None] when [fuel] rounds were not
    enough, or when [chat] does not come back. *)
Fixpoint chat_loop (fuel : nat) (self : ConversationalOrchestrator W Args)
    (thread_id : string) (inputs : list Input) (w : W) (out : list string)
    : option Session :=
  match fuel with
  | O => None
  | S fuel' =>
      let out := (out ++ ["You: "])%list in
      match inputs with
      | [] =>
          chat_loop fuel' self thread_id [] w (out ++ apology EOFError)%list
      | Interrupt :: rest =>
          Some {| printed := (out ++ [interrupted])%list;
                  orchestrator := self;
                  world_left := w;
                  unread := rest |}
      | Line text :: rest =>
          let user_input := strip text in
          if is_exit user_input then
            Some {| printed := (out ++ [goodbye])%list;
                    orchestrator := self;
                    world_left := w;
                    unread := rest |}
          else
            match user_input with
            | EmptyString => chat_loop fuel' self thread_id rest w out
            | String _ _ =>
                let out := (out ++ [(nl ++ "Bot: ")%string])%list in
                match chat self user_input thread_id w with
                | None => None
                | Some (Returned response, self', w') =>
                    chat_loop fuel' self' thread_id rest w'
                      (out ++ [println response; println EmptyString])%list
                | Some (Raised e, self', w') =>
                    chat_loop fuel' self' thread_id rest w'
                      (out ++ apology e)%list
                end
            end
      end
  end.

Definition start_chat (fuel : nat) (self : ConversationalOrchestrator W Args)
    (thread_id : string) (inputs : list Input) (w : W) : option Session :=
  chat_loop fuel self thread_id inputs w banner.

End Defs.

End ChatSession.

(* ================================================================== *)
(** ** Specification predicates *)
(* ================================================================== *)

(** [needle] occurs in [hay]. *)
Definition occurs_in (needle hay : string) : Prop :=
  exists before rest, hay = (before ++ needle ++ rest)%string.

Section RouterSpec.

Context {Case : CaseOps}.
Variables (W Args : Type).

(** Some trigger phrase of [config], in lower case, occurs in the
    message in lower case. *)
Definition triggered (m : string) (config : Orchestration.SubAgentConfig W)
    : Prop :=
  exists t, In t (Orchestration.triggers config)
            /\ occurs_in (lower t) (lower m).

Definition untriggered (m : string)
    (item : string * Orchestration.SubAgentConfig W) : Prop :=
  ~ triggered m (snd item).

(** The trigger table of an orchestrator: names and phrases, in the
    order of the dict. *)
Definition trigger_table (self : Orchestration.ConversationalOrchestrator W Args)
    : list (string * list string) :=
  map (fun '(n, c) => (n, Orchestration.triggers c))
      (Orchestration.sub_agents self).

(** The transient fields of a state, or of a returned dict, are
    cleared. *)
Definition cleared (u : Orchestration.OrchestrationState Args) : Prop :=
  Orchestration.current_task u = None
  /\ Orchestration.delegated_to u = None
  /\ Orchestration.task_complete u = true.

(** The graph of [self], or the one [chat] is about to build, has a
    node for the sub-agent [name]. *)
Definition has_node (self : Orchestration.ConversationalOrchestrator W Args)
    (name : string) : Prop :=
  match Orchestration.graph self with
  | None => In name (map fst (Orchestration.sub_agents self))
  | Some nodes => In name nodes
  end.

(** The text a delegation node answers with. *)
Definition delegation_text (agent_name : string) (out : Outcome string)
    : string :=
  match out with
  | Returned result =>
      title agent_name ++ " task completed:" ++ nl ++ nl ++ result
  | Raised e => "Error processing " ++ title agent_name ++ " task: " ++ e
  end.

End RouterSpec.

Section LoopSpec.

Variables (W Args : Type).

(** A call whose tool name is in the list of tools. *)
Definition resolves (ts : list (BaseTool W Args)) (call : ToolCall Args)
    : bool :=
  match find_tool ts (tc_name call) with
  | Some _ => true
  | None => false
  end.

(** The calls of a response that the loop executes, in their order. *)
Definition resolved (ts : list (BaseTool W Args))
    (calls : list (ToolCall Args)) : list (ToolCall Args) :=
  filter (resolves ts) calls.

(** The back-reference of a tool message. *)
Definition back_reference (m : Message Args) : option string :=
  match m with
  | ToolMessage _ id => Some id
  | _ => None
  end.

(** The call a tool invocation was made for. *)
Definition invoked_for (e : Event Args) : option (ToolCall Args) :=
  match e with
  | ToolInvoked _ call => Some call
  | ModelInvoked _ => None
  end.

Definition is_model_invocation (e : Event Args) : bool :=
  match e with
  | ModelInvoked _ => true
  | ToolInvoked _ _ => false
  end.

(** The system message of every call is the text [build] yields at
    the time of the call, whatever the agent has stored. *)
Definition built_at_call (build : W -> string)
    (system_message : Agent W Args -> W -> string) : Prop :=
  forall self w, system_message self w = build w.

End LoopSpec.

(* ================================================================== *)
(** ** Concrete agents and requests *)
(* ================================================================== *)

Module Examples.

Local Open Scope string_scope.

(** Arguments as a mapping from names to texts; the world is a clock
    that counts minutes. *)
Definition Args : Type := list (string * string).
Definition W : Type := nat.

Definition call_1 : ToolCall Args :=
  {| tc_name := "send_email"; tc_args := [("to", "a@b.c")];
     tc_id := "call_1" |}.

Definition call_2 : ToolCall Args :=
  {| tc_name := "search_emails"; tc_args := [("query", "is:unread")];
     tc_id := "call_2" |}.

(** A tool that answers and lets a minute go by. *)
Definition search_emails : BaseTool W Args :=
  {| name := "search_emails";
     invoke := fun _ w =>
       (Returned "No emails found matching the search criteria.", S w) |}.

(** A model that asks for [calls] when it sees the two seed messages
    and answers in text afterwards. *)
Definition asks_once (calls : list (ToolCall Args)) : ChatOllama W Args :=
  {| bound := [];
     answer := fun _ history w =>
       match history with
       | [_; _] => (Returned {| r_content := EmptyString;
                                r_tool_calls := calls |}, w)
       | _ => (Returned {| r_content := "Done."; r_tool_calls := [] |}, w)
       end |}.

(** A model that answers in text at once. *)
Definition answers (text : string) : ChatOllama W Args :=
  {| bound := [];
     answer := fun _ _ w =>
       (Returned {| r_content := text; r_tool_calls := [] |}, w) |}.

(** A Gmail agent whose model asks for a tool it does not have. *)
Definition gmail_unknown_tool : Agent W Args :=
  add_tool (GmailAgent.init (asks_once [call_1])) search_emails.

(** Gmail agents whose model asks for the known tool, for one unknown
    and one known tool, and for none. *)
Definition gmail_search : Agent W Args :=
  add_tool (GmailAgent.init (asks_once [call_2])) search_emails.

Definition gmail_two_calls : Agent W Args :=
  add_tool (GmailAgent.init (asks_once [call_1; call_2])) search_emails.

Definition gmail_plain : Agent W Args :=
  GmailAgent.init (answers "Paris.").

(** A Gmail agent whose stored prompt was replaced after it was
    built. *)
Definition gmail_restyled : Agent W Args :=
  {| system_prompt := "Answer in one word.";
     model := answers "Yes.";
     tools := [] |}.

(** A clock that shows the minute of the first day. *)
Definition clock (w : W) : string :=
  match w with
  | 0 => "Monday, January 01, 2024 at 12:00 AM"
  | _ => "Monday, January 01, 2024 at 12:01 AM"
  end.

(** A sub-agent whose [process_request] raises. *)
Definition unreachable : Orchestration.SubAgent W :=
  fun _ w => Some (Raised "connection refused", w).

(** An agent object as the orchestrator calls it: the world its loop
    leaves is the world after the call; a task that is [None] is
    rejected when the human message is built. *)
Definition sub_agent_of
    (process_request : string -> W -> option (Outcome string * Run W Args))
    : Orchestration.SubAgent W :=
  fun task w =>
    match task with
    | Some request =>
        match process_request request w with
        | Some (out, st) => Some (out, world st)
        | None => None
        end
    | None => Some (Raised "content: Input should be a valid string", w)
    end.

Definition call_3 : ToolCall Args :=
  {| tc_name := "create_calendar_event";
     tc_args := [("summary", "Team Standup")];
     tc_id := "call_3" |}.

Definition create_calendar_event : BaseTool W Args :=
  {| name := "create_calendar_event";
     invoke := fun _ w => (Returned "Event created: Team Standup", S w) |}.

(** A calendar agent that creates the event and reports. *)
Definition calendar_agent : Agent W Args :=
  CalendarAgent.create_calendar_agent clock (asks_once [call_3])
    [create_calendar_event] 0.

Definition calendar_sub_agent : Orchestration.SubAgent W :=
  sub_agent_of (CalendarAgent.process_request clock 2 calendar_agent).

(** The orchestrator of [run_chat_bot], with a mail agent that cannot
    be reached. *)
Definition assistant : Orchestration.ConversationalOrchestrator W Args :=
  Orchestration.create_orchestrator_with_agents
    unreachable calendar_sub_agent (answers "Paris.").

Definition scenario_A : string :=
  "Create a meeting called Team Standup tomorrow at 10am for 30 minutes".

Definition scenario_B : string := "What's the capital of France?".

(** A mailbox with one label, and one whose messages are gone; the
    state counts the changes made. *)
Definition mailbox : GmailTools.Service nat unit :=
  {| GmailTools.labels_list := fun r =>
       (GmailTools.Ok [{| GmailTools.l_name := "Work";
                          GmailTools.l_id := "Label_1" |}], r);
     GmailTools.messages_modify := fun _ _ r => (GmailTools.Ok tt, S r);
     GmailTools.messages_get := fun id _ r =>
       (GmailTools.Ok
          {| GmailTools.m_id := id;
             GmailTools.m_headers :=
               [{| GmailTools.h_name := "Subject";
                   GmailTools.h_value := "Standup notes" |}];
             GmailTools.m_payload := tt |}, r) |}.

Definition mailbox_gone : GmailTools.Service nat unit :=
  {| GmailTools.labels_list := GmailTools.labels_list mailbox;
     GmailTools.messages_modify := GmailTools.messages_modify mailbox;
     GmailTools.messages_get := fun _ _ r =>
       (GmailTools.Fails
          (GmailTools.HttpError (Some 404) "<HttpError 404>"), r) |}.

Definition body_of : unit -> GmailTools.Result string :=
  fun _ => GmailTools.Ok "See you at ten.".

Definition inbox : GmailTools.Gmail nat :=
  {| GmailTools.remote := 0; GmailTools.requests := [] |}.

(** The label tool as [create_gmail_tools(credentials)] makes it. *)
Definition label_tool : GmailTools.GmailApplyLabelTool :=
  {| GmailTools.allowed_labels := GmailTools.toolkit_allowed_labels None |}.

Definition asking (calls : list (ToolCall Args)) : Response Args :=
  {| r_content := EmptyString; r_tool_calls := calls |}.

Definition start (history : list (Message Args)) : Run W Args :=
  {| messages := history; world := 0; events := [] |}.

(** The run on which [process_request] starts the loop. *)
Definition seeded (a : Agent W Args) (request : string) : Run W Args :=
  start (seed Args (system_prompt a) request).

End Examples.

(* ================================================================== *)
(** ** Predicates on histories *)
(* ================================================================== *)

Section HistorySpec.

Variable Args : Type.

(** The ids a tool message may refer to after [msgs] was read: those of
    the tool calls of the last AI message, as long as only tool messages
    followed it. *)
Fixpoint open_ids (open : list string) (msgs : list (Message Args))
    : list string :=
  match msgs with
  | [] => open
  | AIMessage _ calls :: rest => open_ids (map (@tc_id Args) calls) rest
  | ToolMessage _ _ :: rest => open_ids open rest
  | _ :: rest => open_ids [] rest
  end.

(** Every tool message refers to a tool call of the AI message it
    follows. *)
Fixpoint references_ok (open : list string) (msgs : list (Message Args))
    : bool :=
  match msgs with
  | [] => true
  | AIMessage _ calls :: rest => references_ok (map (@tc_id Args) calls) rest
  | ToolMessage _ id :: rest =>
      existsb (String.eqb id) open && references_ok open rest
  | _ :: rest => references_ok [] rest
  end.

(** A message the loop appends: an AI message or a tool message. *)
Definition appended_by_loop (m : Message Args) : bool :=
  isAIMessage m || isToolMessage m.

Definition is_tool_invocation (e : Event Args) : bool :=
  negb (is_model_invocation e).

(** The invocations of the model that raised: one when the request
    ended with an exception. *)
Definition failed_invocations (out : Outcome string) : nat :=
  match out with
  | Returned _ => 0
  | Raised _ => 1
  end.

End HistorySpec.

Section TurnSpec.

Context {Case : CaseOps}.
Variables (W Args : Type).

(** The messages the orchestrator's model is invoked on: the history,
    after the system prompt when the history has no system message. *)
Definition model_input (self : Orchestration.ConversationalOrchestrator W Args)
    (history : list (Message Args)) : list (Message Args) :=
  match filter (@isSystemMessage Args) history with
  | [] => SystemMessage (Orchestration._get_system_prompt self) :: history
  | _ :: _ => history
  end.

(** How [chat] ends when the orchestrator's model was invoked. *)
Definition direct_answer (out : Outcome (Response Args)) : Outcome string :=
  match out with
  | Returned response => Returned (r_content response)
  | Raised e => Raised e
  end.

End TurnSpec.

Module MoreExamples.

Import Examples.

Local Open Scope string_scope.

(** A model that cannot be reached. *)
Definition down : ChatOllama W Args :=
  {| bound := [];
     answer := fun _ _ w => (Raised "connection refused", w) |}.

Definition gmail_down : Agent W Args :=
  add_tool (GmailAgent.init down) search_emails.

(** The orchestrator of [run_chat_bot] with a model that cannot be
    reached. *)
Definition silent : Orchestration.ConversationalOrchestrator W Args :=
  Orchestration.create_orchestrator_with_agents
    unreachable calendar_sub_agent down.


End MoreExamples.

Module ToolWorlds.

Import GmailTools.

Local Open Scope string_scope.

(** A mailbox that finds three messages and cannot fetch the second. *)
Definition found_three : GmailSearch.Service nat :=
  {| GmailSearch.messages_list := fun _ _ r => (Ok ["m1"; "m2"; "m3"], r);
     GmailSearch.messages_get_metadata := fun id r =>
       if String.eqb id "m2" then (Fails (OtherError "timed out"), r)
       else (Ok [{| h_name := "From"; h_value := "ann@example.org" |};
                 {| h_name := "Subject"; h_value := "Standup notes" |}], r) |}.

Definition outbox : GmailSearch.Mailbox nat :=
  {| GmailSearch.remote := 0; GmailSearch.sent := [] |}.

Definition first_bytes (n : nat) (s : string) : string := substring 0 n s.

(** A date and time of day, as the toy parser below yields it. *)
Record Moment : Type := {
  day : string;
  at_hour : nat;
  at_minute : nat
}.

(** A parser that knows one day, with or without the time 14:00. *)
Definition toy_strptime (date_str fmt : string) : Outcome Moment :=
  if String.eqb date_str "2025-01-15" && String.eqb fmt "%Y-%m-%d" then
    Returned {| day := "2025-01-15"; at_hour := 0; at_minute := 0 |}
  else if String.eqb date_str "2025-01-15 14:00"
          && String.eqb fmt "%Y-%m-%d %H:%M" then
    Returned {| day := "2025-01-15"; at_hour := 14; at_minute := 0 |}
  else Raised ("time data '" ++ date_str ++ "' does not match format '"
               ++ fmt ++ "'").

Definition toy_localize (timezone : string) (dt : Moment) : Outcome string :=
  if String.eqb timezone "America/New_York" then
    Returned (day dt ++ "T14:00:00-05:00")
  else Raised ("'" ++ timezone ++ "'").

Definition standup : CalendarTools.EventDict :=
  [("id", CalendarTools.JString "evt1");
   ("summary", CalendarTools.JString "Team Standup");
   ("status", CalendarTools.JString "confirmed");
   ("start", CalendarTools.JObject
               [("date", CalendarTools.JString "2025-01-14")])].

(** A calendar with the one event [evt1]; the state counts the changes
    made. *)
Definition one_event : CalendarTools.Service nat :=
  {| CalendarTools.events_insert := fun body r =>
       (Ok (("id", CalendarTools.JString "evt2") :: body), S r);
     CalendarTools.events_get := fun id r =>
       if String.eqb id "evt1" then (Ok standup, r)
       else (Fails (HttpError (Some 404) "<HttpError 404>"), r);
     CalendarTools.events_update := fun _ body r => (Ok body, S r);
     CalendarTools.events_delete := fun _ r => (Ok tt, S r) |}.

Definition untouched : CalendarTools.Calendar nat :=
  {| CalendarTools.remote := 0; CalendarTools.sent := [] |}.

Definition toy_render (v : CalendarTools.Json) : string := "<value>".

End ToolWorlds.


Section SessionSpec.

Variables (W Args : Type).

(** Every registered sub-agent comes back from [process_request],
    with a result or with an exception. *)
Definition always_answer
    (self : Orchestration.ConversationalOrchestrator W Args) : Prop :=
  forall n config,
    Orchestration.dict_get (Orchestration.sub_agents self) n = Some config ->
    forall task w, Orchestration.agent config task w <> None.

(** An input that is a line but not one of the words that end the
    session. *)
Definition goes_on {Case : CaseOps} (strip : string -> string)
    (i : ChatSession.Input) : Prop :=
  exists text,
    i = ChatSession.Line text
    /\ ChatSession.is_exit (strip text) = false.

End SessionSpec.

Module SessionWorlds.

Import Examples.

Local Open Scope string_scope.

(** [str.strip] on ASCII text. *)
Definition is_space (c : ascii) : bool :=
  let n := nat_of_ascii c in
  ((n =? 32) || ((9 <=? n) && (n <=? 13)) || ((28 <=? n) && (n <=? 31)))%nat.

Fixpoint lstrip (s : string) : string :=
  match s with
  | EmptyString => EmptyString
  | String c rest => if is_space c then lstrip rest else s
  end.

Fixpoint rstrip (s : string) : string :=
  match s with
  | EmptyString => EmptyString
  | String c rest =>
      match rstrip rest with
      | EmptyString => if is_space c then EmptyString
                       else String c EmptyString
      | String d kept => String c (String d kept)
      end
  end.

Definition ascii_strip (s : string) : string := rstrip (lstrip s).

(** An orchestrator whose one sub-agent cannot be reached. *)
Definition front_desk : Orchestration.ConversationalOrchestrator W Args :=
  Orchestration.add_sub_agent (Orchestration.init (answers "Paris."))
    "gmail" unreachable Orchestration.gmail_triggers.

End SessionWorlds.


(* ================================================================== *)
(** * Properties *)
(* ================================================================== *)

(** ** Strings *)

Lemma prefix_occurs (p s : string) :
  String.prefix p s = true <-> exists rest, s = (p ++ rest)%string.
Proof.
  revert s. induction p as [|c p IH]; intros s.
  - split; [intros _; exists s; reflexivity | intros _; destruct s; reflexivity].
  - destruct s as [|d s]; simpl.
    + split; [discriminate | intros [r Hr]; discriminate Hr].
    + destruct (Ascii.ascii_dec c d) as [->|Hne].
      * rewrite IH. split; intros [r Hr]; exists r.
        -- now rewrite Hr.
        -- now inversion Hr.
      * split; [discriminate|]. intros [r Hr]. inversion Hr. congruence.
Qed.

Lemma contains_unfold (needle hay : string) :
  contains needle hay =
  if String.prefix needle hay then true
  else match hay with
       | EmptyString => false
       | String _ rest => contains needle rest
       end.
Proof. destruct hay; reflexivity. Qed.

Lemma contains_occurs (needle hay : string) :
  contains needle hay = true <-> occurs_in needle hay.
Proof.
  unfold occurs_in. induction hay as [|c hay IH];
    rewrite contains_unfold;
    match goal with |- context [String.prefix ?n ?h] =>
      destruct (String.prefix n h) eqn:Hp
    end.
  - apply prefix_occurs in Hp. destruct Hp as [r Hr].
    split; [intros _; exists EmptyString, r; exact Hr | reflexivity].
  - split; [discriminate|]. intros [b [r Hr]].
    destruct b; [|discriminate Hr]. simpl in Hr.
    assert (String.prefix needle EmptyString = true) as Ht
      by (apply prefix_occurs; exists r; exact Hr).
    congruence.
  - apply prefix_occurs in Hp. destruct Hp as [r Hr].
    split; [intros _; exists EmptyString, r; exact Hr | reflexivity].
  - rewrite IH. split.
    + intros [b [r Hr]]. exists (String c b), r. simpl. now rewrite Hr.
    + intros [b [r Hr]]. destruct b as [|d b]; simpl in Hr.
      * assert (String.prefix needle (String c hay) = true) as Ht
          by (apply prefix_occurs; exists r; exact Hr).
        congruence.
      * inversion Hr. exists b, r. reflexivity.
Qed.

Lemma contains_false_iff (needle hay : string) :
  contains needle hay = false <-> ~ occurs_in needle hay.
Proof.
  rewrite <- contains_occurs. destruct (contains needle hay); split;
    congruence.
Qed.

(** ** The delegation router *)

Section Router.

Context {Case : CaseOps}.
Variables (W Args : Type).

Import Orchestration.

Local Abbreviation Config := (SubAgentConfig W).
Local Abbreviation Orchestrator := (ConversationalOrchestrator W Args).

Lemma any_trigger_triggered (m : string) (config : Config) :
  any_trigger (lower m) config = true <-> triggered m config.
Proof.
  unfold any_trigger, triggered. rewrite existsb_exists.
  split; intros [t [Hin Ht]]; exists t; split; try assumption;
    now apply contains_occurs.
Qed.

Lemma any_trigger_not_triggered (m : string) (config : Config) :
  any_trigger (lower m) config = false <-> ~ triggered m config.
Proof.
  rewrite <- any_trigger_triggered.
  destruct (any_trigger (lower m) config); split; congruence.
Qed.

Lemma first_match_Some (m : string) (items : dict Config) (n : string) :
  first_match (lower m) items = Some n <->
  exists before config rest,
    items = before ++ (n, config) :: rest
    /\ triggered m config
    /\ Forall (untriggered m) before.
Proof.
  induction items as [|[k c] items IH]; simpl.
  - split; [discriminate|].
    intros (before & config & rest & Heq & _).
    destruct before; discriminate Heq.
  - destruct (any_trigger (lower m) c) eqn:Hc.
    + split.
      * intros [= <-]. exists [], c, items.
        repeat split; [now apply any_trigger_triggered | constructor].
      * intros (before & config & rest & Heq & Ht & Hb).
        destruct before as [|b before]; simpl in Heq.
        -- now inversion Heq.
        -- inversion Heq; subst b. inversion Hb as [|? ? Hu _]; subst.
           apply any_trigger_triggered in Hc. now elim Hu.
    + rewrite IH. split.
      * intros (before & config & rest & -> & Ht & Hb).
        exists ((k, c) :: before), config, rest.
        repeat split; try assumption.
        constructor; [now apply any_trigger_not_triggered | assumption].
      * intros (before & config & rest & Heq & Ht & Hb).
        destruct before as [|b before]; simpl in Heq.
        -- inversion Heq; subst. apply any_trigger_triggered in Ht.
           congruence.
        -- inversion Heq; subst. inversion Hb; subst.
           exists before, config, rest. repeat split; assumption.
Qed.

Lemma first_match_None (m : string) (items : dict Config) :
  first_match (lower m) items = None <-> Forall (untriggered m) items.
Proof.
  induction items as [|[k c] items IH]; simpl.
  - split; [constructor | reflexivity].
  - destruct (any_trigger (lower m) c) eqn:Hc.
    + split; [discriminate|]. intros H. inversion H as [|? ? Hu _]; subst.
      apply any_trigger_triggered in Hc. now elim Hu.
    + rewrite IH. split.
      * intros H. constructor; [now apply any_trigger_not_triggered | exact H].
      * intros H. now inversion H.
Qed.

(** The router reads the names and the trigger phrases only. *)
Lemma first_match_table (ml : string) (items items' : dict Config) :
  map (fun '(n, c) => (n, triggers c)) items
  = map (fun '(n, c) => (n, triggers c)) items' ->
  first_match ml items = first_match ml items'.
Proof.
  revert items'. induction items as [|[k c] items IH];
    intros [|[k' c'] items']; simpl; try discriminate; [reflexivity|].
  intros [= -> Ht Hrest]. unfold any_trigger. rewrite Ht.
  now rewrite (IH _ Hrest).
Qed.

(** Registration: a new name goes to the end of the dict, a name that
    is registered again keeps its place. *)
Lemma dict_set_new (V : Type) (d : dict V) (k : string) (v : V) :
  dict_get d k = None -> dict_set d k v = d ++ [(k, v)].
Proof.
  induction d as [|[k' v'] d IH]; simpl; [reflexivity|].
  destruct (String.eqb k' k); [discriminate|].
  intros H. now rewrite (IH H).
Qed.

Lemma dict_set_keys (V : Type) (d : dict V) (k : string) (v : V) :
  dict_get d k <> None -> map fst (dict_set d k v) = map fst d.
Proof.
  induction d as [|[k' v'] d IH]; simpl; [congruence|].
  destruct (String.eqb k' k); [reflexivity|].
  intros H. simpl. now rewrite (IH H).
Qed.

(** C5. [_should_delegate] returns the first sub-agent, in the order of
    registration, one of whose trigger phrases occurs, both in lower
    case, in the message, and [None] exactly when no sub-agent has such
    a phrase; the answer is a function of the message and of the trigger
    table alone, so that equal inputs give equal choices; and of two
    sub-agents whose phrases both occur, the one registered first is
    returned.  The order is that of registration: [add_sub_agent] puts
    a new name after the names already there. *)
Theorem should_delegate_first_registered
    (self : Orchestrator) (m : string) :
  (forall n,
      _should_delegate self m = Some n <->
      exists before config rest,
        sub_agents self = before ++ (n, config) :: rest
        /\ triggered m config
        /\ Forall (untriggered m) before)
  /\ (_should_delegate self m = None <->
      Forall (untriggered m) (sub_agents self))
  /\ (forall self' : Orchestrator,
         trigger_table self' = trigger_table self ->
         _should_delegate self' m = _should_delegate self m)
  /\ (forall n1 c1 between n2 c2 rest,
         sub_agents self = (n1, c1) :: between ++ (n2, c2) :: rest ->
         triggered m c1 -> triggered m c2 ->
         _should_delegate self m = Some n1)
  /\ (forall name a phrases,
         dict_get (sub_agents self) name = None ->
         sub_agents (add_sub_agent self name a phrases)
         = sub_agents self ++ [(name, {| agent := a; triggers := phrases |})]).
Proof.
  unfold _should_delegate. repeat split.
  - now apply first_match_Some.
  - now apply first_match_Some.
  - now apply first_match_None.
  - now apply first_match_None.
  - intros self' Ht. now apply first_match_table.
  - intros n1 c1 between n2 c2 rest Heq H1 _.
    apply first_match_Some. exists [], c1, (between ++ (n2, c2) :: rest).
    repeat split; [exact Heq | exact H1 | constructor].
  - intros name a phrases Hnew. now apply dict_set_new.
Qed.

End Router.

(** ** The agent loop *)

Section Loop.

Variables (W Args : Type).

Local Abbreviation Tool := (BaseTool W Args).
Local Abbreviation Call := (ToolCall Args).

Lemma run_tool_calls_cons (ts : list Tool) (call : Call)
    (calls : list Call) (st : Run W Args) :
  run_tool_calls ts (call :: calls) st
  = run_tool_calls ts calls (run_tool_call ts call st).
Proof. reflexivity. Qed.

(** One call: nothing happens when the name is not found, and one
    invocation and one tool message with the id of the call when it
    is. *)
Lemma run_tool_call_unknown (ts : list Tool) (call : Call) (st : Run W Args) :
  resolves ts call = false -> run_tool_call ts call st = st.
Proof.
  unfold resolves, run_tool_call.
  destruct (find_tool ts (tc_name call)); [discriminate | reflexivity].
Qed.

Lemma run_tool_call_known (ts : list Tool) (call : Call) (st : Run W Args) :
  resolves ts call = true ->
  exists text tool,
    find_tool ts (tc_name call) = Some tool
    /\ messages (run_tool_call ts call st)
       = messages st ++ [ToolMessage text (tc_id call)]
    /\ events (run_tool_call ts call st)
       = events st ++ [ToolInvoked (name tool) call].
Proof.
  unfold resolves, run_tool_call.
  destruct (find_tool ts (tc_name call)) as [tool|]; [intros _|discriminate].
  destruct (invoke tool (tc_args call) (world st)) as [[out|e] w'].
  - exists out, tool. repeat split.
  - exists ("Tool execution error: " ++ e)%string, tool. repeat split.
Qed.

Lemma run_tool_calls_trace (ts : list Tool) (calls : list Call)
    (st : Run W Args) :
  exists replies invocations,
    messages (run_tool_calls ts calls st) = messages st ++ replies
    /\ events (run_tool_calls ts calls st) = events st ++ invocations
    /\ map (@back_reference Args) replies
       = map (fun c => Some (tc_id c)) (resolved ts calls)
    /\ map (@invoked_for Args) invocations = map Some (resolved ts calls).
Proof.
  revert st. induction calls as [|call calls IH]; intros st.
  - exists [], []. simpl. now rewrite !app_nil_r.
  - rewrite run_tool_calls_cons.
    destruct (IH (run_tool_call ts call st))
      as (replies & invs & Hm & He & Hr & Hi).
    unfold resolved in *. simpl. destruct (resolves ts call) eqn:Hk.
    + destruct (run_tool_call_known ts call st Hk)
        as (text & tool & _ & Hm1 & He1).
      exists (ToolMessage text (tc_id call) :: replies),
             (ToolInvoked (name tool) call :: invs).
      rewrite Hm, He, Hm1, He1, <- !app_assoc. simpl.
      rewrite Hr, Hi. repeat split.
    + rewrite (run_tool_call_unknown ts call st Hk) in Hm, He |- *.
      exists replies, invs. repeat split; assumption.
Qed.

Lemma resolved_all (ts : list Tool) (calls : list Call) :
  forallb (resolves ts) calls = true -> resolved ts calls = calls.
Proof.
  unfold resolved. induction calls as [|c calls IH]; simpl; [reflexivity|].
  intros H. apply andb_prop in H. destruct H as [Hc Hr].
  rewrite Hc. now rewrite (IH Hr).
Qed.

Lemma agent_loop_tool_round (a : Agent W Args) (st : Run W Args)
    (fuel : nat) (response : Response Args) (w1 : W) :
  model_invoke (model a) (messages st) (world st) = (Returned response, w1) ->
  r_tool_calls response <> [] ->
  agent_loop (S fuel) a st
  = agent_loop fuel a
      (run_tool_calls (tools a) (r_tool_calls response)
         {| messages := messages st ++ [as_message response];
            world := w1;
            events := events st ++ [ModelInvoked (messages st)] |}).
Proof.
  intros Hm Hc. simpl. rewrite Hm.
  destruct (r_tool_calls response); [congruence | reflexivity].
Qed.

Lemma run_tool_calls_app (ts : list Tool) (calls calls' : list Call)
    (st : Run W Args) :
  run_tool_calls ts (calls ++ calls') st
  = run_tool_calls ts calls' (run_tool_calls ts calls st).
Proof. unfold run_tool_calls. apply fold_left_app. Qed.

Lemma run_tool_calls_without (ts : list Tool) (before rest : list Call)
    (call : Call) (st : Run W Args) :
  find_tool ts (tc_name call) = None ->
  run_tool_calls ts (before ++ call :: rest) st
  = run_tool_calls ts (before ++ rest) st.
Proof.
  intros Hf. rewrite !run_tool_calls_app, run_tool_calls_cons.
  assert (forall s, run_tool_call ts call s = s) as Hs
    by (intros s; unfold run_tool_call; now rewrite Hf).
  now rewrite Hs.
Qed.

(** C1, as amended. A tool call of a response whose name is not in the
    agent's list of tools is skipped by the loop of [process_request]:
    the round leaves the run it would leave had the call not been
    emitted, so no tool is invoked and no message is appended for it
    and nothing is raised; the loop goes on with the other calls and
    then invokes the model again, on that history, and ends as that
    invocation decides. *)
Theorem unknown_tool_call_skipped (a : Agent W Args) (st : Run W Args)
    (fuel : nat) (response : Response Args) (w1 : W)
    (before rest : list Call) (call : Call) :
  model_invoke (model a) (messages st) (world st) = (Returned response, w1) ->
  r_tool_calls response = before ++ call :: rest ->
  find_tool (tools a) (tc_name call) = None ->
  let st1 := {| messages := messages st ++ [as_message response];
                world := w1;
                events := events st ++ [ModelInvoked (messages st)] |} in
  let st2 := run_tool_calls (tools a) (before ++ rest) st1 in
  let again := events st2 ++ [ModelInvoked (messages st2)] in
  run_tool_calls (tools a) (r_tool_calls response) st1 = st2
  /\ agent_loop (S fuel) a st = agent_loop fuel a st2
  /\ (forall e w2,
         model_invoke (model a) (messages st2) (world st2) = (Raised e, w2) ->
         agent_loop (S (S fuel)) a st
         = Some (Raised e,
                 {| messages := messages st2; world := w2;
                    events := again |}))
  /\ (forall answer w2,
         model_invoke (model a) (messages st2) (world st2)
         = (Returned answer, w2) ->
         r_tool_calls answer = [] ->
         agent_loop (S (S fuel)) a st
         = Some (Returned (r_content answer),
                 {| messages := messages st2 ++ [as_message answer];
                    world := w2; events := again |}))
  /\ (forall answer w2,
         model_invoke (model a) (messages st2) (world st2)
         = (Returned answer, w2) ->
         r_tool_calls answer <> [] ->
         agent_loop (S (S fuel)) a st
         = agent_loop fuel a
             (run_tool_calls (tools a) (r_tool_calls answer)
                {| messages := messages st2 ++ [as_message answer];
                   world := w2; events := again |})).
Proof.
  intros Hm Hc Hf st1 st2 again.
  assert (run_tool_calls (tools a) (r_tool_calls response) st1 = st2) as H2.
  { rewrite Hc. now apply run_tool_calls_without. }
  assert (r_tool_calls response <> []) as Hne.
  { rewrite Hc. destruct before; discriminate. }
  assert (forall n, agent_loop (S n) a st = agent_loop n a st2) as Hround.
  { intros n. rewrite (agent_loop_tool_round a st n Hm Hne).
    fold st1. now rewrite H2. }
  split; [exact H2|]. split; [apply Hround|]. split; [|split].
  - intros e w2 Hn. rewrite Hround. simpl. rewrite Hn. reflexivity.
  - intros answer w2 Hn Hnone. rewrite Hround. simpl.
    rewrite Hn, Hnone. reflexivity.
  - intros answer w2 Hn Hsome. rewrite Hround.
    now rewrite (agent_loop_tool_round a st2 fuel Hn Hsome).
Qed.

(** C2, as amended. After a response with tool calls the loop invokes
    the model again only on the run left by the calls; the tool
    invocations made in between are those of the calls whose name is in
    the list of tools, one each and in the order emitted, and so are the
    tool messages appended, each with the id of its call; when every
    name is in the list, that is one invocation and one tool message per
    call. *)
Theorem tool_calls_answered_in_order (a : Agent W Args) (st : Run W Args)
    (fuel : nat) (response : Response Args) (w1 : W) :
  model_invoke (model a) (messages st) (world st) = (Returned response, w1) ->
  r_tool_calls response <> [] ->
  let calls := r_tool_calls response in
  let st1 := {| messages := messages st ++ [as_message response];
                world := w1;
                events := events st ++ [ModelInvoked (messages st)] |} in
  let st2 := run_tool_calls (tools a) calls st1 in
  agent_loop (S fuel) a st = agent_loop fuel a st2
  /\ exists replies invocations,
       messages st2 = messages st1 ++ replies
       /\ events st2 = events st1 ++ invocations
       /\ map (@back_reference Args) replies
          = map (fun c => Some (tc_id c)) (resolved (tools a) calls)
       /\ map (@invoked_for Args) invocations
          = map Some (resolved (tools a) calls)
       /\ (forallb (resolves (tools a)) calls = true ->
           length replies = length calls
           /\ length invocations = length calls
           /\ map (@back_reference Args) replies
              = map (fun c => Some (tc_id c)) calls).
Proof.
  intros Hm Hc calls st1 st2. split.
  - now apply agent_loop_tool_round.
  - destruct (run_tool_calls_trace (tools a) calls st1)
      as (replies & invs & H1 & H2 & H3 & H4).
    exists replies, invs. do 4 (split; [assumption|]).
    intros Hall. rewrite (resolved_all _ _ Hall) in H3, H4.
    split; [|split; [|exact H3]].
    + apply (f_equal (@length _)) in H3. now rewrite !length_map in H3.
    + apply (f_equal (@length _)) in H4. now rewrite !length_map in H4.
Qed.

(** C3. When the model's response carries no tool calls, the loop ends
    in that round, after the one model invocation that produced the
    response, and returns the text of the response as it is.  Both
    [GmailAgent.process_request] and [CalendarAgent.process_request]
    are this loop, started on the seed messages. *)
Theorem no_tool_calls_final_answer (a : Agent W Args) (st : Run W Args)
    (fuel : nat) (response : Response Args) (w1 : W) :
  model_invoke (model a) (messages st) (world st) = (Returned response, w1) ->
  r_tool_calls response = [] ->
  agent_loop (S fuel) a st
  = Some (Returned (r_content response),
          {| messages := messages st ++ [as_message response];
             world := w1;
             events := events st ++ [ModelInvoked (messages st)] |}).
Proof.
  intros Hm Hc. simpl. rewrite Hm, Hc. reflexivity.
Qed.

End Loop.

(** *** The loop on concrete agents *)

Module LoopExamples.

Import Examples.

Local Open Scope string_scope.

Lemma unknown_tool_call_skipped_witness :
  model_invoke (model gmail_two_calls)
    (messages (seeded gmail_two_calls "Find and send")) 0
  = (Returned (asking [call_1; call_2]), 0)
  /\ find_tool (tools gmail_two_calls) (tc_name call_1) = None
  /\ agent_loop 2 gmail_two_calls (seeded gmail_two_calls "Find and send")
     = agent_loop 1 gmail_two_calls
         (run_tool_calls (tools gmail_two_calls) [call_2]
            {| messages := messages (seeded gmail_two_calls "Find and send")
                           ++ [as_message (asking [call_1; call_2])];
               world := 0;
               events := [ModelInvoked
                            (messages
                               (seeded gmail_two_calls "Find and send"))] |}).
Proof.
  split; [reflexivity|]. split; [reflexivity|].
  apply (proj1 (proj2
           (@unknown_tool_call_skipped W Args gmail_two_calls
              (seeded gmail_two_calls "Find and send") 1
              (asking [call_1; call_2]) 0 [] [call_2] call_1
              eq_refl eq_refl eq_refl))).
Defined.

(** C1 fails as stated: the Gmail agent, whose model asks for the tool
    [send_email] that is not in its list, ends the request with no
    tool message at all, hence none with the id of that call. *)
Lemma unknown_tool_call_unanswered :
  exists st,
    GmailAgent.process_request 2 gmail_unknown_tool "Send it" 0
    = Some (Returned "Done.", st)
    /\ find_tool (tools gmail_unknown_tool) (tc_name call_1) = None
    /\ filter (@isToolMessage Args) (messages st) = []
    /\ ~ (exists text, In (ToolMessage text (tc_id call_1)) (messages st)).
Proof.
  eexists. split; [reflexivity|]. split; [reflexivity|].
  split; [reflexivity|].
  intros [text Hin]. simpl in Hin.
  repeat (destruct Hin as [Hin|Hin]; [discriminate Hin|]). exact Hin.
Qed.

Lemma tool_calls_answered_witness :
  model_invoke (model gmail_search) (messages (seeded gmail_search "Find"))
               0 = (Returned (asking [call_2]), 0)
  /\ r_tool_calls (asking [call_2]) <> []
  /\ agent_loop 2 gmail_search (seeded gmail_search "Find")
     = agent_loop 1 gmail_search
         (run_tool_calls (tools gmail_search) [call_2]
            {| messages := messages (seeded gmail_search "Find")
                           ++ [as_message (asking [call_2])];
               world := 0;
               events := [ModelInvoked
                            (messages (seeded gmail_search "Find"))] |}).
Proof.
  split; [reflexivity|]. split; [discriminate|].
  apply (proj1 (@tool_calls_answered_in_order W Args gmail_search
                  (seeded gmail_search "Find") 1 (asking [call_2]) 0
                  eq_refl
                  (fun H : r_tool_calls (asking [call_2]) = [] =>
                     @eq_ind _ [call_2]
                       (fun l => match l with [] => False | _ => True end)
                       I [] H))).
Defined.

(** C2 fails as stated: of the two calls of one response, the first
    names a tool that is not in the list; one tool is invoked and one
    tool message is appended before the model is invoked again. *)
Lemma two_calls_one_invocation :
  exists st,
    GmailAgent.process_request 2 gmail_two_calls "Find and send" 0
    = Some (Returned "Done.", st)
    /\ length (r_tool_calls (asking [call_1; call_2])) = 2
    /\ map (@is_model_invocation Args) (events st) = [true; false; true]
    /\ map (@back_reference Args)
           (filter (@isToolMessage Args) (messages st)) = [Some "call_2"].
Proof.
  eexists. repeat split.
Qed.

Lemma no_tool_calls_witness :
  GmailAgent.process_request 1 gmail_plain "What's the capital of France?" 0
  = Some (Returned "Paris.",
          {| messages :=
               messages (seeded gmail_plain "What's the capital of France?")
               ++ [AIMessage "Paris." []];
             world := 0;
             events :=
               [ModelInvoked
                  (messages
                     (seeded gmail_plain "What's the capital of France?"))]
          |}).
Proof.
  apply (@no_tool_calls_final_answer W Args gmail_plain
           (seeded gmail_plain "What's the capital of France?") 0
           {| r_content := "Paris."; r_tool_calls := [] |} 0);
    reflexivity.
Defined.

End LoopExamples.

(** ** The system message of the two agents *)

Section SystemMessage.

Variables (W Args : Type).
Variable strftime_now : W -> string.

Lemma add_tools_system_prompt (ts : list (BaseTool W Args))
    (a : Agent W Args) :
  system_prompt (fold_left (@add_tool W Args) ts a) = system_prompt a.
Proof.
  revert a. induction ts as [|t ts IH]; intros a; simpl; [reflexivity|].
  now rewrite IH.
Qed.

(** C4, as amended. [CalendarAgent.process_request] seeds the history
    with a prompt built at the time of the call, whatever the agent
    stored when it was built; [GmailAgent.process_request] seeds it
    with the prompt the agent stored when it was built, which for an
    agent made by [create_gmail_agent] is the constant text of
    [_get_system_prompt] and carries no date or time. *)
Theorem system_message_of_each_agent (llm : ChatOllama W Args)
    (ts : list (BaseTool W Args)) (request : string) (fuel : nat)
    (built_at called_at : W) :
  let calendar :=
    CalendarAgent.create_calendar_agent strftime_now llm ts built_at in
  let gmail := GmailAgent.create_gmail_agent llm ts in
  built_at_call (CalendarAgent._get_system_prompt strftime_now)
                (CalendarAgent.system_message (Args:=Args) strftime_now)
  /\ CalendarAgent.process_request strftime_now fuel calendar request
       called_at
     = agent_loop fuel calendar
         {| messages :=
              [SystemMessage
                 (CalendarAgent._get_system_prompt strftime_now called_at);
               HumanMessage request];
            world := called_at;
            events := [] |}
  /\ (forall self : Agent W Args,
         GmailAgent.system_message self called_at = system_prompt self)
  /\ system_prompt gmail = GmailAgent._get_system_prompt
  /\ GmailAgent.process_request fuel gmail request called_at
     = agent_loop fuel gmail
         {| messages :=
              [SystemMessage GmailAgent._get_system_prompt;
               HumanMessage request];
            world := called_at;
            events := [] |}.
Proof.
  intros calendar gmail.
  assert (system_prompt gmail = GmailAgent._get_system_prompt) as Hg
    by apply add_tools_system_prompt.
  repeat split; try assumption.
  unfold GmailAgent.process_request, GmailAgent.system_message, seed.
  now rewrite Hg.
Qed.

End SystemMessage.

Module SystemMessageExamples.

Import Examples.

Local Open Scope string_scope.

(** C4 fails as stated: [GmailAgent.process_request] takes the system
    message from the value the agent has stored; on an agent whose
    stored prompt is another text, the history starts with that text
    and not with a prompt built at the call. *)
Lemma gmail_system_message_is_stored :
  (exists st,
      GmailAgent.process_request 1 gmail_restyled "Is it late?" 1
      = Some (Returned "Yes.", st)
      /\ hd_error (messages st)
         = Some (SystemMessage "Answer in one word.")
      /\ "Answer in one word." <> GmailAgent._get_system_prompt)
  /\ ~ built_at_call (fun _ : W => GmailAgent._get_system_prompt)
         (GmailAgent.system_message (W:=W) (Args:=Args)).
Proof.
  assert ("Answer in one word." <> GmailAgent._get_system_prompt) as Hne
    by (intros H; discriminate H).
  split.
  - eexists. repeat split. exact Hne.
  - intros H. apply Hne. exact (H gmail_restyled 0).
Qed.

(** The prompt a calendar agent stored when it was built at minute 0
    is not the one its request of minute 1 is seeded with. *)
Lemma calendar_prompt_follows_clock :
  system_prompt (CalendarAgent.init clock (answers "Yes.") 0)
  <> CalendarAgent.system_message clock
       (CalendarAgent.init clock (answers "Yes.") 0) 1.
Proof.
  intros H. vm_compute in H. discriminate H.
Qed.

End SystemMessageExamples.

(** ** The conversation state machine *)

Section StateMachine.

Context {Case : CaseOps}.
Variables (W Args : Type).

Import Orchestration.

Local Open Scope string_scope.

Local Abbreviation State := (OrchestrationState Args).
Local Abbreviation Orchestrator := (ConversationalOrchestrator W Args).

Lemma last_snoc (A : Type) (l : list A) (x : A) :
  last (map Some (l ++ [x])) None = Some x.
Proof.
  rewrite map_app. simpl. apply last_last.
Qed.

Lemma finished_cleared (m : Message Args) : cleared (finished m).
Proof. repeat split. Qed.

(** The two ways [orchestrator_node] returns. *)
Lemma orchestrator_node_returns (self : Orchestrator) (state : State)
    (w w' : W) (update : State) :
  orchestrator_node self state w = (Returned update, w') ->
  (exists text d,
      update = delegating text d
      /\ last (map Some (messages state)) None = Some (HumanMessage text)
      /\ _should_delegate self text = Some d
      /\ truthy (Some d) = true
      /\ w' = w)
  \/ (exists m, update = finished m).
Proof.
  unfold orchestrator_node.
  destruct (last (map Some (messages state)) None) as [last_message|];
    [|discriminate].
  set (msgs := match filter (@isSystemMessage Args) (messages state) with
               | [] => _
               | _ :: _ => _
               end).
  assert (forall r,
             (let (response, w0) := model_invoke (model self) msgs w in
              match response with
              | Returned response =>
                  (Returned (finished (as_message response)), w0)
              | Raised e => (Raised e, w0)
              end) = r ->
             r = (Returned update, w') ->
             exists m, update = finished m) as Hconv.
  { intros r <-. destruct (model_invoke (model self) msgs w) as [[resp|e] w0];
      intros [= <- <-]. now exists (as_message resp). }
  destruct last_message as [c|text|c tcs|c id];
    try (intros H; right; exact (Hconv _ eq_refl H)).
  destruct (_should_delegate self text) as [d|] eqn:Hd;
    [|intros H; right; exact (Hconv _ eq_refl H)].
  destruct (truthy (Some d)) eqn:Ht;
    [|intros H; right; exact (Hconv _ eq_refl H)].
  intros [= <- <-]. left. exists text, d. repeat split; assumption.
Qed.

Lemma delegation_node_returns (self : Orchestrator) (agent_name : string)
    (state update : State) (w w' : W) :
  delegation_node self agent_name state w = Some (Returned update, w') ->
  exists m, update = finished m.
Proof.
  unfold delegation_node.
  destruct (dict_get (sub_agents self) agent_name) as [config|];
    [|discriminate].
  destruct (agent config (current_task state) w) as [[[result|e] w0]|];
    [| |discriminate]; intros [= <- <-]; eexists; reflexivity.
Qed.

Lemma should_continue_delegating (state : State) (text d : string) :
  truthy (Some d) = true ->
  should_continue (write state (delegating text d)) = "delegate_" ++ d.
Proof.
  intros Ht. unfold should_continue. simpl delegated_to. now rewrite Ht.
Qed.

Lemma delegate_is_not_END (d : string) :
  String.eqb ("delegate_" ++ d) END = false.
Proof. reflexivity. Qed.

Lemma find_node (name : string) (nodes : list string) :
  In name nodes ->
  find (fun n => String.eqb ("delegate_" ++ n) ("delegate_" ++ name)) nodes
  = Some name.
Proof.
  induction nodes as [|n nodes IH]; [intros []|].
  intros Hin. cbn [find].
  assert (String.eqb ("delegate_" ++ n) ("delegate_" ++ name)
          = String.eqb n name) as -> by reflexivity.
  destruct (String.eqb_spec n name) as [->|Hne]; [reflexivity|].
  apply IH. destruct Hin as [H|H]; [now elim Hne | exact H].
Qed.

Lemma dict_get_In (V : Type) (d : dict V) (k : string) (v : V) :
  dict_get d k = Some v -> In k (map fst d).
Proof.
  induction d as [|[k' v'] d IH]; simpl; [discriminate|].
  destruct (String.eqb_spec k' k) as [->|Hne]; [now left|].
  intros H. right. now apply IH.
Qed.

Lemma orchestrator_node_delegates (self : Orchestrator) (state : State)
    (w : W) (text d : string) :
  last (map Some (messages state)) None = Some (HumanMessage text) ->
  _should_delegate self text = Some d ->
  truthy (Some d) = true ->
  orchestrator_node self state w = (Returned (delegating text d), w).
Proof.
  intros Hl Hd Ht. unfold orchestrator_node. rewrite Hl, Hd, Ht.
  reflexivity.
Qed.

Lemma last_ai_reply (state : State) (text : string) :
  last_ai (write state (finished (reply text))) = text.
Proof.
  unfold last_ai, write, add_messages. cbn [messages finished].
  rewrite filter_app. cbn [filter reply isAIMessage].
  now rewrite last_snoc.
Qed.

(** A turn whose message triggers the sub-agent [name]: the graph goes
    through [orchestrator] and [delegate_<name>], and ends with the
    text of the delegation node, whether the sub-agent returned or
    raised. *)
Lemma graph_invoke_delegates (self : Orchestrator) (nodes : list string)
    (message thread_id name : string) (config : SubAgentConfig W)
    (out : Outcome string) (w w' : W) :
  In name nodes ->
  _should_delegate self message = Some name ->
  truthy (Some name) = true ->
  dict_get (sub_agents self) name = Some config ->
  agent config (Some message) w = Some (out, w') ->
  exists t st,
    graph_invoke self nodes (initial_state message) thread_id w = Some t
    /\ outcome t = Returned st
    /\ visited t = ["orchestrator"; "delegate_" ++ name]
    /\ world_after t = w'
    /\ cleared st
    /\ last_ai st = delegation_text name out.
Proof.
  intros Hin Hd Ht Hc Ha. unfold graph_invoke.
  set (state0 := write (checkpoint self thread_id) (initial_state message)).
  rewrite (@orchestrator_node_delegates self state0 w message name);
    try assumption.
  2:{ unfold state0, write, add_messages. cbn [messages initial_state].
      apply last_snoc. }
  rewrite should_continue_delegating by assumption.
  rewrite delegate_is_not_END, (find_node _ _ Hin).
  unfold delegation_node. rewrite Hc.
  cbn [current_task write delegating]. rewrite Ha.
  destruct out as [result|e]; eexists; eexists;
    (split; [reflexivity|]); cbn [outcome visited world_after];
    repeat split; apply last_ai_reply.
Qed.

Lemma turn_delegates (self : Orchestrator)
    (message thread_id name : string) (config : SubAgentConfig W)
    (out : Outcome string) (w w' : W) :
  has_node self name ->
  _should_delegate self message = Some name ->
  truthy (Some name) = true ->
  dict_get (sub_agents self) name = Some config ->
  agent config (Some message) w = Some (out, w') ->
  exists t st,
    turn self message thread_id w = Some t
    /\ outcome t = Returned st
    /\ visited t = ["orchestrator"; "delegate_" ++ name]
    /\ world_after t = w'
    /\ cleared st
    /\ last_ai st = delegation_text name out.
Proof.
  unfold has_node, turn. intros Hn Hd Ht Hc Ha.
  destruct (graph self) as [nodes|] eqn:Hg.
  - rewrite Hg. now apply graph_invoke_delegates with (config := config).
  - cbn [graph build_graph].
    now apply graph_invoke_delegates with (config := config).
Qed.

Lemma graph_invoke_cleared (self : Orchestrator) (nodes : list string)
    (initial : State) (thread_id : string) (w : W) (t : Turn W Args)
    (st : State) :
  graph_invoke self nodes initial thread_id w = Some t ->
  outcome t = Returned st ->
  cleared st.
Proof.
  unfold graph_invoke.
  set (state0 := write (checkpoint self thread_id) initial).
  destruct (orchestrator_node self state0 w) as [[update|e] w1] eqn:Ho.
  2:{ intros [= <-]. discriminate. }
  destruct (orchestrator_node_returns _ _ _ Ho)
    as [(text & d & -> & _ & _ & Ht & _) | (m & ->)].
  - rewrite should_continue_delegating by assumption.
    rewrite delegate_is_not_END.
    destruct (find _ nodes) as [agent_name|]; [|intros [= <-]; discriminate].
    destruct (delegation_node self agent_name _ w1)
      as [[[update|e] w2]|] eqn:Hn; [| |discriminate].
    + destruct (delegation_node_returns _ _ _ _ Hn) as [m ->].
      intros [= <-] [= <-]. apply finished_cleared.
    + intros [= <-]. discriminate.
  - cbn. intros [= <-] [= <-]. apply finished_cleared.
Qed.

Lemma turn_cleared (self : Orchestrator) (message thread_id : string)
    (w : W) (t : Turn W Args) (st : State) :
  turn self message thread_id w = Some t ->
  outcome t = Returned st ->
  cleared st.
Proof.
  unfold turn. apply graph_invoke_cleared.
Qed.

End StateMachine.

Section Delegation.

Context {Case : CaseOps}.
Variables (W Args : Type).

Import Orchestration.

Local Open Scope string_scope.

Local Abbreviation State := (OrchestrationState Args).
Local Abbreviation Orchestrator := (ConversationalOrchestrator W Args).

Lemma truthy_Some (s : string) : s <> EmptyString -> truthy (Some s) = true.
Proof.
  intros H. unfold truthy. destruct (String.eqb_spec s EmptyString);
    [contradiction | reflexivity].
Qed.

Lemma delegation_node_outcome (self : Orchestrator) (agent_name : string)
    (config : SubAgentConfig W) (state : State) (out : Outcome string)
    (w w' : W) :
  dict_get (sub_agents self) agent_name = Some config ->
  agent config (current_task state) w = Some (out, w') ->
  delegation_node self agent_name state w
  = Some (Returned (finished (reply (delegation_text agent_name out))), w').
Proof.
  intros Hc Ha. unfold delegation_node. rewrite Hc, Ha.
  destruct out; reflexivity.
Qed.

(** C6. When the [process_request] of the sub-agent raises in a
    delegation node, the node does not raise: it returns the AI message
    [Error processing <Agent> task: <reason>] with the transient fields
    cleared and [task_complete] set, the same dict as on success but
    for the text; and the turn of [chat] that delegated ends with that
    text as its answer. *)
Theorem delegation_failure_reported (self : Orchestrator)
    (agent_name : string) (config : SubAgentConfig W) (e : string)
    (w w' : W) :
  dict_get (sub_agents self) agent_name = Some config ->
  let error_content :=
    "Error processing " ++ title agent_name ++ " task: " ++ e in
  (forall state : State,
      agent config (current_task state) w = Some (Raised e, w') ->
      delegation_node self agent_name state w
      = Some (Returned {| messages := [AIMessage error_content []];
                          current_task := None;
                          delegated_to := None;
                          task_complete := true |}, w'))
  /\ (forall (state : State) (result : string),
         agent config (current_task state) w = Some (Returned result, w') ->
         delegation_node self agent_name state w
         = Some (Returned
                   {| messages :=
                        [AIMessage (title agent_name ++ " task completed:"
                                    ++ nl ++ nl ++ result) []];
                      current_task := None;
                      delegated_to := None;
                      task_complete := true |}, w'))
  /\ (forall message thread_id : string,
         has_node self agent_name ->
         _should_delegate self message = Some agent_name ->
         agent_name <> EmptyString ->
         agent config (Some message) w = Some (Raised e, w') ->
         exists t st,
           turn self message thread_id w = Some t
           /\ outcome t = Returned st
           /\ task_complete st = true
           /\ chat self message thread_id w
              = Some (Returned error_content, after t, w')).
Proof.
  intros Hc error_content. split; [|split].
  - intros state Ha.
    eapply eq_trans;
      [eapply delegation_node_outcome; eassumption | reflexivity].
  - intros state result Ha.
    eapply eq_trans;
      [eapply delegation_node_outcome; eassumption | reflexivity].
  - intros message thread_id Hn Hd Hne Ha.
    apply truthy_Some in Hne.
    destruct (@turn_delegates Case W Args self message thread_id agent_name
                config (Raised e) w w' Hn Hd Hne Hc Ha)
      as (t & st & Ht & Ho & _ & Hw & Hcl & Hl).
    exists t, st. repeat split; try assumption.
    + apply Hcl.
    + unfold chat. rewrite Ht, Ho, Hl, Hw. reflexivity.
Qed.

End Delegation.

(** ** The configured orchestrator, on ASCII text *)

Module Scenarios.

Import Orchestration Examples.

Local Open Scope string_scope.

#[local] Existing Instance AsciiCase.

(** C7. On the message of scenario A the router of the orchestrator
    built by [create_orchestrator_with_agents] returns [calendar]: the
    calendar phrases [meeting] and [team standup] occur in the message
    in lower case and no Gmail phrase does; the graph goes from
    [orchestrator] to [delegate_calendar]; and when the calendar agent
    returns [result], the answer of the turn is [result] after the
    calendar wrapper [Calendar task completed:]. *)
Theorem scenario_A_delegates_to_calendar (W Args : Type)
    (gmail_agent calendar_agent : SubAgent W) (llm : ChatOllama W Args)
    (thread_id result : string) (w w' : W) :
  calendar_agent (Some scenario_A) w = Some (Returned result, w') ->
  let orchestrator :=
    create_orchestrator_with_agents gmail_agent calendar_agent llm in
  _should_delegate orchestrator scenario_A = Some "calendar"
  /\ In "meeting" calendar_triggers
  /\ occurs_in (lower "meeting") (lower scenario_A)
  /\ In "team standup" calendar_triggers
  /\ occurs_in (lower "team standup") (lower scenario_A)
  /\ Forall (fun t => ~ occurs_in (lower t) (lower scenario_A))
            gmail_triggers
  /\ exists t,
       turn orchestrator scenario_A thread_id w = Some t
       /\ visited t = ["orchestrator"; "delegate_calendar"]
       /\ chat orchestrator scenario_A thread_id w
          = Some (Returned ("Calendar task completed:" ++ nl ++ nl ++ result),
                  after t, w').
Proof.
  intros Ha orchestrator.
  assert (_should_delegate orchestrator scenario_A = Some "calendar") as Hd
    by reflexivity.
  split; [exact Hd|].
  split; [unfold calendar_triggers; simpl; tauto|].
  split; [apply contains_occurs; reflexivity|].
  split; [unfold calendar_triggers; simpl; tauto|].
  split; [apply contains_occurs; reflexivity|].
  split.
  { unfold gmail_triggers.
    repeat (constructor; [apply contains_false_iff; reflexivity|]).
    constructor. }
  destruct (@turn_delegates AsciiCase W Args orchestrator scenario_A
              thread_id "calendar"
              {| agent := calendar_agent; triggers := calendar_triggers |}
              (Returned result) w w')
    as (t & st & Ht & Ho & Hv & Hw & _ & Hl).
  - unfold has_node. simpl. right. left. reflexivity.
  - exact Hd.
  - reflexivity.
  - reflexivity.
  - exact Ha.
  - exists t. split; [exact Ht|]. split; [exact Hv|].
    unfold chat. rewrite Ht, Ho, Hl, Hw. reflexivity.
Qed.

(** A message with a Gmail phrase and a calendar phrase goes to Gmail,
    which was registered first. *)
Lemma first_registered_witness :
  triggered "Email me the meeting notes"
    {| agent := unreachable; triggers := gmail_triggers |}
  /\ triggered "Email me the meeting notes"
       {| agent := calendar_sub_agent; triggers := calendar_triggers |}
  /\ _should_delegate assistant "Email me the meeting notes" = Some "gmail".
Proof.
  assert (triggered "Email me the meeting notes"
            {| agent := unreachable; triggers := gmail_triggers |}) as H1.
  { exists "email". split; [now left | apply contains_occurs; reflexivity]. }
  assert (triggered "Email me the meeting notes"
            {| agent := calendar_sub_agent; triggers := calendar_triggers |})
    as H2.
  { exists "meeting".
    split; [right; now left | apply contains_occurs; reflexivity]. }
  split; [exact H1|]. split; [exact H2|].
  apply (proj1 (proj2 (proj2 (proj2
           (@should_delegate_first_registered AsciiCase W Args assistant
              "Email me the meeting notes"))))
           "gmail" _ [] "calendar" _ [] eq_refl H1 H2).
Defined.

Lemma scenario_A_witness :
  calendar_sub_agent (Some scenario_A) 0 = Some (Returned "Done.", 1)
  /\ _should_delegate assistant scenario_A = Some "calendar"
  /\ exists t,
       turn assistant scenario_A "default" 0 = Some t
       /\ visited t = ["orchestrator"; "delegate_calendar"]
       /\ chat assistant scenario_A "default" 0
          = Some (Returned ("Calendar task completed:" ++ nl ++ nl ++ "Done."),
                  after t, 1).
Proof.
  split; [reflexivity|].
  destruct (@scenario_A_delegates_to_calendar W Args unreachable
              calendar_sub_agent (answers "Paris.") "default" "Done." 0 1
              eq_refl)
    as (Hd & _ & _ & _ & _ & _ & Ht).
  split; [exact Hd | exact Ht].
Defined.

Lemma delegation_failure_witness :
  dict_get (sub_agents assistant) "gmail"
  = Some {| agent := unreachable; triggers := gmail_triggers |}
  /\ delegation_node assistant "gmail" (initial_state (Args:=Args) "Draft it") 0
     = Some (Returned
               {| messages :=
                    [AIMessage
                       "Error processing Gmail task: connection refused" []];
                  current_task := None;
                  delegated_to := None;
                  task_complete := true |}, 0).
Proof.
  split; [reflexivity|].
  apply (proj1 (@delegation_failure_reported AsciiCase W Args assistant
                  "gmail"
                  {| agent := unreachable; triggers := gmail_triggers |}
                  "connection refused" 0 0 eq_refl)).
  reflexivity.
Defined.

End Scenarios.

(** ** The Gmail tools *)

Section Tools.

Context {Case : CaseOps}.
Variables (R Payload : Type).
Variable service : GmailTools.Service R Payload.
Variable parse_email_body : Payload -> GmailTools.Result string.

Import GmailTools.

Local Open Scope string_scope.

Lemma not_allowed_iff (self : GmailApplyLabelTool) (label : string) :
  not_allowed self label = true
  <-> ~ In (lower label) (map lower (allowed_labels self)).
Proof.
  unfold not_allowed. rewrite negb_true_iff.
  split.
  - intros Hf Hin.
    assert (existsb (String.eqb (lower label))
                    (map lower (allowed_labels self)) = true) as Ht.
    { apply existsb_exists. exists (lower label).
      split; [exact Hin | apply String.eqb_refl]. }
    congruence.
  - intros Hn.
    destruct (existsb (String.eqb (lower label))
                      (map lower (allowed_labels self))) eqn:He;
      [|reflexivity].
    apply existsb_exists in He. destruct He as [x [Hin Hx]].
    apply String.eqb_eq in Hx. subst x. contradiction.
Qed.

(** C8. When the label, in lower case, is not among the allowed labels
    in lower case, [apply_email_label] returns the error text that
    names the label and lists the allowed labels; it sends no request,
    so nothing is modified at the remote service; and it returns a
    text, it does not raise. *)
Theorem disallowed_label_rejected (self : GmailApplyLabelTool)
    (email_id label : string) (g : Gmail R) :
  ~ In (lower label) (map lower (allowed_labels self)) ->
  apply_label_run service self email_id label g
  = ("Error: '" ++ label ++ "' is not an allowed label. Allowed labels are: "
     ++ join ", " (allowed_labels self), g)
  /\ requests (snd (apply_label_run service self email_id label g))
     = requests g
  /\ remote (snd (apply_label_run service self email_id label g))
     = remote g.
Proof.
  intros Hn. apply not_allowed_iff in Hn.
  unfold apply_label_run. rewrite Hn. repeat split.
Qed.

Lemma handle_error_is_not_an_email (e : Error) (context : string)
    (email_data : EmailData) (include_body : bool) :
  _handle_error e context <> format_email email_data include_body.
Proof.
  unfold format_email.
  destruct e as [[status|] text|text]; cbn [_handle_error];
    [destruct (Nat.eqb status 404); [|destruct (Nat.eqb status 403)]| |];
    destruct include_body; simpl; discriminate.
Qed.

(** C9, as amended. [get_email_content] never returns the content of
    the email: its result is always an error text of [_handle_error]
    for the context [retrieving email <id>].  When the message is
    fetched, the call of [_parse_email] with one argument too many
    raises, and the text is [Error in retrieving email <id>: ] followed
    by the message of that [TypeError]; when the fetch itself raises,
    the text is the one [_handle_error] gives for that error. *)
Theorem get_email_returns_error_text (email_id : string)
    (include_body : bool) (g : Gmail R) :
  let run := get_email_run service parse_email_body email_id include_body g in
  (exists e, fst run = _handle_error e ("retrieving email " ++ email_id))
  /\ (forall message remote',
         messages_get service email_id "full" (remote g)
         = (Ok message, remote') ->
         fst run
         = "Error in retrieving email " ++ email_id ++ ": "
           ++ "GmailGetEmailTool._parse_email() takes 2 positional "
           ++ "arguments but 3 were given")
  /\ (forall e remote',
         messages_get service email_id "full" (remote g)
         = (Fails e, remote') ->
         fst run = _handle_error e ("retrieving email " ++ email_id))
  /\ (forall email_data, fst run <> format_email email_data include_body)
  /\ requests (snd run) = (requests g ++ [MessagesGet email_id "full"])%list.
Proof.
  intros run.
  assert (exists e, fst run = _handle_error e ("retrieving email " ++ email_id))
    as He.
  { unfold run, get_email_run, execute.
    destruct (messages_get service email_id "full" (remote g))
      as [[message|e] remote'].
    - exists parse_email_TypeError. reflexivity.
    - exists e. reflexivity. }
  split; [exact He|]. split; [|split; [|split]].
  - intros message remote' Hg. unfold run, get_email_run, execute.
    rewrite Hg. reflexivity.
  - intros e remote' Hg. unfold run, get_email_run, execute.
    rewrite Hg. reflexivity.
  - intros email_data. destruct He as [e ->].
    apply handle_error_is_not_an_email.
  - unfold run, get_email_run, execute.
    destruct (messages_get service email_id "full" (remote g))
      as [[message|e] remote']; reflexivity.
Qed.

End Tools.

Module ToolExamples.

Import GmailTools Examples.

Local Open Scope string_scope.

#[local] Existing Instance AsciiCase.

(** Scenario C: the label [Urgent] is not one of the default labels. *)
Lemma disallowed_label_witness :
  ~ In (lower "Urgent") (map lower (allowed_labels label_tool))
  /\ apply_label_run mailbox label_tool "18c7f8a5b2d3e4f5" "Urgent" inbox
     = ("Error: 'Urgent' is not an allowed label. Allowed labels are: "
        ++ "Spam, News, University, Financial, Personal, Work, "
        ++ "Promotions, Meeting, Other", inbox).
Proof.
  assert (~ In (lower "Urgent") (map lower (allowed_labels label_tool)))
    as Hn.
  { simpl. intros H.
    repeat (destruct H as [H|H]; [discriminate H|]). exact H. }
  split; [exact Hn|].
  apply (proj1 (@disallowed_label_rejected AsciiCase nat unit mailbox
                  label_tool "18c7f8a5b2d3e4f5" "Urgent" inbox Hn)).
Defined.

(** An allowed label, for comparison, reaches the service. *)
Lemma allowed_label_applied :
  apply_label_run mailbox label_tool "18c7f8a5b2d3e4f5" "work" inbox
  = ("Successfully applied label 'work' to email 18c7f8a5b2d3e4f5",
     {| remote := 1;
        requests := [LabelsList;
                     MessagesModify "18c7f8a5b2d3e4f5" ["Label_1"]] |}).
Proof. reflexivity. Qed.

(** C9 fails as stated: when the message is gone the fetch raises an
    [HttpError] with status 404, and the text of the tool is not of the
    form [Error in retrieving email <id>: ...]. *)
Lemma get_email_not_found_text :
  fst (get_email_run mailbox_gone body_of "18c7" true inbox)
  = "Error: Resource not found in retrieving email 18c7"
  /\ ~ (exists reason,
          fst (get_email_run mailbox_gone body_of "18c7" true inbox)
          = "Error in retrieving email " ++ "18c7" ++ ": " ++ reason).
Proof.
  split; [reflexivity|]. intros [reason H]. discriminate H.
Qed.

Lemma get_email_witness :
  messages_get mailbox "18c7" "full" (remote inbox)
  = (Ok {| m_id := "18c7";
           m_headers := [{| h_name := "Subject";
                            h_value := "Standup notes" |}];
           m_payload := tt |}, 0)
  /\ fst (get_email_run mailbox body_of "18c7" true inbox)
     = "Error in retrieving email 18c7: GmailGetEmailTool._parse_email() "
       ++ "takes 2 positional arguments but 3 were given".
Proof.
  split; [reflexivity|].
  apply (proj1 (proj2 (@get_email_returns_error_text nat unit mailbox
                         body_of "18c7" true inbox)) _ 0 eq_refl).
Defined.

End ToolExamples.

(** ** More on the agent loop *)

Section LoopHistory.

Variables (W Args : Type).

Local Abbreviation Tool := (BaseTool W Args).
Local Abbreviation Call := (ToolCall Args).

(** The three ways a round of the loop goes. *)
Lemma agent_loop_cases (fuel : nat) (a : Agent W Args) (st : Run W Args)
    (r : Outcome string * Run W Args) :
  agent_loop (S fuel) a st = Some r ->
  let ev := events st ++ [ModelInvoked (messages st)] in
  (exists e w1,
      model_invoke (model a) (messages st) (world st) = (Raised e, w1)
      /\ r = (Raised e,
              {| messages := messages st; world := w1; events := ev |}))
  \/ (exists response w1,
         model_invoke (model a) (messages st) (world st)
         = (Returned response, w1)
         /\ ((r_tool_calls response = []
              /\ r = (Returned (r_content response),
                      {| messages := messages st ++ [as_message response];
                         world := w1; events := ev |}))
             \/ (r_tool_calls response <> []
                 /\ agent_loop fuel a
                      (run_tool_calls (tools a) (r_tool_calls response)
                         {| messages := messages st ++ [as_message response];
                            world := w1; events := ev |})
                    = Some r))).
Proof.
  simpl.
  destruct (model_invoke (model a) (messages st) (world st))
    as [[response|e] w1].
  - intros H. right. exists response, w1. split; [reflexivity|].
    destruct (r_tool_calls response) as [|c cs] eqn:Hc.
    + left. split; [reflexivity|]. now inversion H.
    + right. split; [discriminate | exact H].
  - intros [= <-]. left. exists e, w1. split; reflexivity.
Qed.

(** What the calls of one response leave behind: tool messages that
    refer to these calls, and as many tool invocations. *)
Lemma run_tool_calls_replies (ts : list Tool) (calls : list Call)
    (st : Run W Args) :
  exists replies invocations,
    messages (run_tool_calls ts calls st) = messages st ++ replies
    /\ events (run_tool_calls ts calls st) = events st ++ invocations
    /\ Forall (fun m => exists text id,
                   m = ToolMessage text id
                   /\ In id (map (@tc_id Args) calls)) replies
    /\ forallb (@is_tool_invocation Args) invocations = true
    /\ length replies = length invocations.
Proof.
  revert st. induction calls as [|call calls IH]; intros st.
  - exists [], []. simpl. rewrite !app_nil_r. repeat split. constructor.
  - rewrite run_tool_calls_cons.
    destruct (IH (run_tool_call ts call st))
      as (replies & invs & Hm & He & Hr & Hi & Hl).
    assert (Forall (fun m => exists text id,
                        m = ToolMessage text id
                        /\ In id (map (@tc_id Args) (call :: calls)))
                   replies) as Hr'.
    { eapply Forall_impl; [|exact Hr].
      intros m (text & id & -> & Hin). exists text, id.
      split; [reflexivity | now right]. }
    destruct (resolves ts call) eqn:Hk.
    + destruct (run_tool_call_known ts call st Hk)
        as (text & tool & _ & Hm1 & He1).
      exists (ToolMessage text (tc_id call) :: replies),
             (ToolInvoked (name tool) call :: invs).
      rewrite Hm, He, Hm1, He1, <- !app_assoc. simpl.
      repeat split; try assumption; [|now rewrite Hl].
      constructor; [|exact Hr'].
      exists text, (tc_id call). split; [reflexivity | now left].
    + rewrite (run_tool_call_unknown ts call st Hk) in Hm, He |- *.
      exists replies, invs. repeat split; assumption.
Qed.

End LoopHistory.

Section LoopInvariants.

Variables (W Args : Type).

Local Abbreviation Tool := (BaseTool W Args).
Local Abbreviation Call := (ToolCall Args).
Local Abbreviation Msg := (Message Args).

Lemma open_ids_app (open : list string) (l l' : list Msg) :
  open_ids open (l ++ l') = open_ids (open_ids open l) l'.
Proof.
  revert open. induction l as [|m l IH]; intros open; [reflexivity|].
  destruct m; simpl; apply IH.
Qed.

Lemma references_ok_app (open : list string) (l l' : list Msg) :
  references_ok open (l ++ l')
  = references_ok open l && references_ok (open_ids open l) l'.
Proof.
  revert open. induction l as [|m l IH]; intros open; [reflexivity|].
  destruct m; simpl; rewrite ?IH, ?andb_assoc; reflexivity.
Qed.

Lemma references_ok_replies (open : list string) (replies : list Msg) :
  Forall (fun m => exists text id, m = ToolMessage text id /\ In id open)
         replies ->
  references_ok open replies = true.
Proof.
  induction 1 as [|m replies (text & id & -> & Hin) _ IH]; [reflexivity|].
  simpl. rewrite IH, andb_true_r. apply existsb_exists.
  exists id. split; [exact Hin | apply String.eqb_refl].
Qed.

Lemma replies_counts (ids : list string) (replies : list Msg) :
  Forall (fun m => exists text id, m = ToolMessage text id /\ In id ids)
         replies ->
  forallb (@appended_by_loop Args) replies = true
  /\ filter (@isToolMessage Args) replies = replies
  /\ filter (@isAIMessage Args) replies = [].
Proof.
  induction 1 as [|m replies (text & id & -> & _) _ (IH1 & IH2 & IH3)];
    [repeat split|].
  simpl. rewrite IH1, IH2, IH3. repeat split.
Qed.

Lemma invocations_counts (invs : list (Event Args)) :
  forallb (@is_tool_invocation Args) invs = true ->
  filter (@is_tool_invocation Args) invs = invs
  /\ filter (@is_model_invocation Args) invs = [].
Proof.
  induction invs as [|e invs IH]; [repeat split|].
  simpl. intros H. apply andb_prop in H. destruct H as [He Hr].
  destruct (IH Hr) as [IH1 IH2]. rewrite He.
  unfold is_tool_invocation in He. apply negb_true_iff in He.
  rewrite He, IH1, IH2. repeat split.
Qed.

(** The history of a request only grows, by AI messages and tool
    messages: one AI message for each invocation of the model that
    returned and one tool message for each invocation of a tool; and
    the text a request returns is that of the last message, an AI
    message without tool calls. *)
Theorem history_grows_by_replies (fuel : nat) (a : Agent W Args)
    (st st' : Run W Args) (out : Outcome string) :
  agent_loop fuel a st = Some (out, st') ->
  exists added evs,
    messages st' = messages st ++ added
    /\ events st' = events st ++ evs
    /\ forallb (@appended_by_loop Args) added = true
    /\ length (filter (@isToolMessage Args) added)
       = length (filter (@is_tool_invocation Args) evs)
    /\ length (filter (@isAIMessage Args) added) + failed_invocations out
       = length (filter (@is_model_invocation Args) evs)
    /\ (forall text, out = Returned text ->
        exists before, added = before ++ [AIMessage text []]).
Proof.
  revert st. induction fuel as [|fuel IH]; intros st; [discriminate|].
  intros H. apply agent_loop_cases in H.
  destruct H as [(e & w1 & _ & [= -> ->])
                | (response & w1 & _ & [[Hc [= -> ->]] | [_ H]])].
  - exists [], [ModelInvoked (messages st)]. simpl.
    rewrite app_nil_r. repeat split. discriminate.
  - exists [as_message response], [ModelInvoked (messages st)]. simpl.
    repeat split. intros text [= <-]. exists [].
    unfold as_message. now rewrite Hc.
  - apply IH in H.
    destruct H as (added & evs & Hm & He & Ha & Ht & Hi & Hl).
    destruct (run_tool_calls_replies (tools a) (r_tool_calls response)
                {| messages := messages st ++ [as_message response];
                   world := w1;
                   events := events st ++ [ModelInvoked (messages st)] |})
      as (replies & invs & Hm1 & He1 & Hr & Hv & Hlen).
    destruct (@replies_counts _ _ Hr) as (R1 & R2 & R3).
    destruct (@invocations_counts _ Hv) as (V1 & V2).
    rewrite Hm1 in Hm. rewrite He1 in He. cbn [messages events] in Hm, He.
    exists (as_message response :: replies ++ added),
           (ModelInvoked (messages st) :: invs ++ evs).
    rewrite Hm, He, <- !app_assoc. simpl.
    rewrite !filter_app, !length_app, forallb_app, R1, R2, R3, V1, V2, Ha.
    simpl. repeat split.
    + now rewrite Ht, Hlen.
    + now rewrite <- Hi.
    + intros text Ho. destruct (Hl text Ho) as [before ->].
      exists (as_message response :: replies ++ before).
      simpl. now rewrite <- app_assoc.
Qed.

(** In the history of a request every tool message carries the id of
    a tool call of the AI message it follows, when that held of the
    history the loop started on; the seed of [process_request] has no
    tool message. *)
Theorem tool_messages_answer_preceding_calls (fuel : nat) (a : Agent W Args)
    (st st' : Run W Args) (out : Outcome string) :
  agent_loop fuel a st = Some (out, st') ->
  references_ok [] (messages st) = true ->
  references_ok [] (messages st') = true.
Proof.
  revert st. induction fuel as [|fuel IH]; intros st; [discriminate|].
  intros H Hok. apply agent_loop_cases in H.
  destruct H as [(e & w1 & _ & [= -> ->])
                | (response & w1 & _ & [[Hc [= -> ->]] | [_ H]])].
  - exact Hok.
  - simpl. rewrite references_ok_app, Hok.
    destruct (open_ids [] (messages st)); reflexivity.
  - apply IH in H; [exact H|].
    destruct (run_tool_calls_replies (tools a) (r_tool_calls response)
                {| messages := messages st ++ [as_message response];
                   world := w1;
                   events := events st ++ [ModelInvoked (messages st)] |})
      as (replies & invs & Hm1 & _ & Hr & _ & _).
    rewrite Hm1. cbn [messages].
    rewrite !references_ok_app, Hok, open_ids_app. simpl.
    apply (@references_ok_replies _ _ Hr).
Qed.

(** Only the model makes a request fail: when [agent_loop] ends with
    an exception, it is the one the model raised on the history the
    loop ended with, in the last event of the run; what the tools
    raise stays in the history. *)
Theorem only_the_model_fails_a_request (fuel : nat) (a : Agent W Args)
    (st st' : Run W Args) (e : string) :
  agent_loop fuel a st = Some (Raised e, st') ->
  exists w0 evs,
    model_invoke (model a) (messages st') w0 = (Raised e, world st')
    /\ events st' = evs ++ [ModelInvoked (messages st')].
Proof.
  revert st. induction fuel as [|fuel IH]; intros st; [discriminate|].
  intros H. apply agent_loop_cases in H.
  destruct H as [(e' & w1 & Hm & [= -> ->])
                | (response & w1 & _ & [[Hc [= ]] | [_ H]])].
  - exists (world st), (events st). split; [exact Hm | reflexivity].
  - now apply IH in H.
Qed.

End LoopInvariants.

Module LoopInvariantExamples.

Import Examples MoreExamples.

Lemma history_grows_witness :
  exists out st',
    agent_loop 2 gmail_search (seeded gmail_search "Find") = Some (out, st')
    /\ exists added evs,
         messages st' = messages (seeded gmail_search "Find") ++ added
         /\ events st' = events (seeded gmail_search "Find") ++ evs
         /\ forallb (@appended_by_loop Args) added = true
         /\ length (filter (@isToolMessage Args) added)
            = length (filter (@is_tool_invocation Args) evs)
         /\ length (filter (@isAIMessage Args) added)
            + failed_invocations out
            = length (filter (@is_model_invocation Args) evs)
         /\ (forall text, out = Returned text ->
             exists before, added = before ++ [AIMessage text []]).
Proof.
  eexists. eexists. split; [reflexivity|].
  apply (@history_grows_by_replies W Args 2 gmail_search
           (seeded gmail_search "Find")).
  reflexivity.
Defined.

Lemma tool_messages_witness :
  exists out st',
    agent_loop 2 gmail_search (seeded gmail_search "Find") = Some (out, st')
    /\ references_ok [] (messages (seeded gmail_search "Find")) = true
    /\ references_ok [] (messages st') = true.
Proof.
  eexists. eexists. split; [reflexivity|]. split; [reflexivity|].
  eapply (@tool_messages_answer_preceding_calls W Args 2 gmail_search
            (seeded gmail_search "Find"));
    reflexivity.
Defined.

Lemma only_the_model_fails_witness :
  exists st',
    agent_loop 1 gmail_down (seeded gmail_down "Find")
    = Some (Raised "connection refused", st')
    /\ exists w0 evs,
         model_invoke (model gmail_down) (messages st') w0
         = (Raised "connection refused", world st')
         /\ events st' = evs ++ [ModelInvoked (messages st')].
Proof.
  eexists. split; [reflexivity|].
  apply (@only_the_model_fails_a_request W Args 1 gmail_down
           (seeded gmail_down "Find")).
  reflexivity.
Defined.

End LoopInvariantExamples.

(** ** Building the agents *)

Section AgentFactories.

Variables (W Args : Type).
Variable strftime_now : W -> string.

Lemma add_tools_tools (ts : list (BaseTool W Args)) (a : Agent W Args) :
  tools (fold_left (@add_tool W Args) ts a) = tools a ++ ts.
Proof.
  revert a. induction ts as [|t ts IH]; intros a; simpl.
  - now rewrite app_nil_r.
  - rewrite IH. simpl. now rewrite <- app_assoc.
Qed.

Lemma add_tools_answer (ts : list (BaseTool W Args)) (a : Agent W Args) :
  answer (model (fold_left (@add_tool W Args) ts a)) = answer (model a).
Proof.
  revert a. induction ts as [|t ts IH]; intros a; simpl; [reflexivity|].
  now rewrite IH.
Qed.

Lemma add_tools_bound (ts : list (BaseTool W Args)) (a : Agent W Args) :
  bound (model (fold_left (@add_tool W Args) ts a))
  = match ts with
    | [] => bound (model a)
    | _ :: _ => map (@name W Args) (tools a ++ ts)
    end.
Proof.
  revert a. induction ts as [|t ts IH]; intros a; [reflexivity|].
  simpl fold_left. rewrite IH. destruct ts as [|t' ts]; simpl.
  - reflexivity.
  - now rewrite <- app_assoc.
Qed.

(** An agent made by [create_gmail_agent] or [create_calendar_agent]
    has the tools it was given, in their order, and its model is
    invoked with the names of all of them (with the tools bound before,
    when no tool was given): [add_tool] binds the whole list anew each
    time. *)
Theorem created_agents_bind_all_tools (llm : ChatOllama W Args)
    (ts : list (BaseTool W Args)) (built_at w : W)
    (history : list (Message Args)) :
  let gmail := GmailAgent.create_gmail_agent llm ts in
  let calendar :=
    CalendarAgent.create_calendar_agent strftime_now llm ts built_at in
  let names := match ts with
               | [] => bound llm
               | _ :: _ => map (@name W Args) ts
               end in
  get_tools gmail = ts
  /\ get_tools calendar = ts
  /\ model_invoke (model gmail) history w = answer llm names history w
  /\ model_invoke (model calendar) history w = answer llm names history w.
Proof.
  intros gmail calendar names.
  unfold get_tools, model_invoke, gmail, calendar,
    GmailAgent.create_gmail_agent, CalendarAgent.create_calendar_agent.
  rewrite !add_tools_tools, !add_tools_answer, !add_tools_bound.
  unfold names. destruct ts; repeat split.
Qed.

End AgentFactories.

(** ** More on the router and the registry *)

Section Registry.

Context {Case : CaseOps}.
Variables (W Args : Type).

Import Orchestration.

Local Abbreviation Config := (SubAgentConfig W).
Local Abbreviation Orchestrator := (ConversationalOrchestrator W Args).

Lemma dict_get_set_same (V : Type) (d : dict V) (k : string) (v : V) :
  dict_get (dict_set d k v) k = Some v.
Proof.
  induction d as [|[k' v'] d IH]; simpl.
  - now rewrite String.eqb_refl.
  - destruct (String.eqb k' k) eqn:Hk; simpl; now rewrite Hk.
Qed.

Lemma dict_get_set_other (V : Type) (d : dict V) (k k' : string) (v : V) :
  k' <> k -> dict_get (dict_set d k v) k' = dict_get d k'.
Proof.
  intros Hne. induction d as [|[k0 v0] d IH]; simpl.
  - destruct (String.eqb_spec k k'); [congruence | reflexivity].
  - destruct (String.eqb_spec k0 k) as [->|Hk]; simpl.
    + destruct (String.eqb_spec k k'); [congruence | reflexivity].
    + now rewrite IH.
Qed.

Lemma dict_get_None_keys (V : Type) (d : dict V) (k : string) :
  dict_get d k = None <-> ~ In k (map fst d).
Proof.
  induction d as [|[k' v'] d IH]; simpl; [tauto|].
  destruct (String.eqb_spec k' k) as [->|Hne].
  - split; [discriminate | intros H; elim H; now left].
  - rewrite IH. split; [intros H [Hk|Hk]; [congruence | now apply H] | tauto].
Qed.

Lemma dict_set_NoDup (V : Type) (d : dict V) (k : string) (v : V) :
  NoDup (map fst d) -> NoDup (map fst (dict_set d k v)).
Proof.
  intros Hd. destruct (dict_get d k) as [v0|] eqn:Hg.
  - rewrite dict_set_keys; [exact Hd | congruence].
  - rewrite dict_set_new by exact Hg. rewrite map_app. simpl.
    apply NoDup_app; [exact Hd | constructor; [intros [] | constructor]|].
    intros x Hx [<-|[]]. now apply dict_get_None_keys in Hg.
Qed.

(** [add_sub_agent] is a dict assignment: the name then leads to the
    new agent and its phrases, every other name leads where it did,
    the names stay distinct, and a name that was registered before
    keeps its place in the order; the model, the memory and the graph
    are not touched. *)
Theorem add_sub_agent_registers (self : Orchestrator) (name : string)
    (a : SubAgent W) (phrases : list string) :
  let self' := add_sub_agent self name a phrases in
  dict_get (sub_agents self') name
  = Some {| agent := a; triggers := phrases |}
  /\ (forall other, other <> name ->
      dict_get (sub_agents self') other = dict_get (sub_agents self) other)
  /\ (NoDup (map fst (sub_agents self)) ->
      NoDup (map fst (sub_agents self')))
  /\ (dict_get (sub_agents self) name <> None ->
      map fst (sub_agents self') = map fst (sub_agents self))
  /\ model self' = model self
  /\ memory self' = memory self
  /\ graph self' = graph self.
Proof.
  intros self'. unfold self', add_sub_agent. cbn [sub_agents model memory graph].
  split; [apply dict_get_set_same|].
  split; [intros other Hne; now apply dict_get_set_other|].
  split; [apply dict_set_NoDup|].
  split; [apply dict_set_keys|].
  repeat split.
Qed.

Lemma first_match_registered (ml : string) (items : dict Config)
    (n : string) :
  first_match ml items = Some n -> In n (map fst items).
Proof.
  induction items as [|[k c] items IH]; simpl; [discriminate|].
  destruct (any_trigger ml c); [intros [= <-]; now left|].
  intros H. right. now apply IH.
Qed.

(** The router only names registered sub-agents: the name it returns
    is a key of [self.sub_agents], so the lookup of the delegation node
    finds an agent, and the graph that [chat] builds when there is
    none has a node for it. *)
Theorem router_names_registered_agent (self : Orchestrator)
    (m n : string) :
  _should_delegate self m = Some n ->
  In n (map fst (sub_agents self))
  /\ (exists config, dict_get (sub_agents self) n = Some config)
  /\ (graph self = None -> has_node self n).
Proof.
  intros H. apply first_match_registered in H.
  split; [exact H|]. split.
  - destruct (dict_get (sub_agents self) n) as [config|] eqn:Hg.
    + now exists config.
    + apply dict_get_None_keys in Hg. contradiction.
  - intros Hg. unfold has_node. now rewrite Hg.
Qed.



End Registry.

Section AsciiRouter.

Variables (W Args : Type).

Import Orchestration.

#[local] Existing Instance AsciiCase.

Local Abbreviation Config := (SubAgentConfig W).
Local Abbreviation Orchestrator := (ConversationalOrchestrator W Args).

Lemma append_assoc (a b c : string) :
  ((a ++ b) ++ c = a ++ b ++ c)%string.
Proof.
  induction a as [|x a IH]; simpl; [reflexivity | now rewrite IH].
Qed.

Lemma ascii_lower_append (a b : string) :
  ascii_lower (a ++ b) = (ascii_lower a ++ ascii_lower b)%string.
Proof.
  induction a as [|x a IH]; simpl; [reflexivity | now rewrite IH].
Qed.

Lemma occurs_in_longer (needle hay before rest : string) :
  occurs_in needle hay ->
  occurs_in needle (before ++ hay ++ rest)%string.
Proof.
  intros (x & y & ->). exists (before ++ x)%string, (y ++ rest)%string.
  now rewrite !append_assoc.
Qed.

Lemma first_match_upto (ml : string) (before rest : dict Config)
    (n : string) (c : Config) :
  any_trigger ml c = true ->
  exists n', first_match ml (before ++ (n, c) :: rest) = Some n'
             /\ (n' = n \/ In n' (map fst before)).
Proof.
  intros Hc. induction before as [|[k c0] before IH]; simpl.
  - rewrite Hc. exists n. split; [reflexivity | now left].
  - destruct (any_trigger ml c0).
    + exists k. split; [reflexivity | right; now left].
    + destruct IH as (n' & Hn & Hor). exists n'. split; [exact Hn|].
      destruct Hor as [->|Hin]; [now left | right; now right].
Qed.

(** On ASCII text a message that is delegated stays delegated when
    text is put before and after it, to the same sub-agent or to one
    registered before it: a trigger phrase counts wherever it occurs,
    also inside other words. *)
Theorem delegation_survives_more_text (self : Orchestrator)
    (m n before rest : string) :
  _should_delegate self m = Some n ->
  exists n' earlier config later,
    _should_delegate self (before ++ m ++ rest) = Some n'
    /\ sub_agents self = earlier ++ (n, config) :: later
    /\ (n' = n \/ In n' (map fst earlier)).
Proof.
  unfold _should_delegate. intros H.
  apply first_match_Some in H.
  destruct H as (earlier & config & later & Heq & (t & Hin & Ht) & _).
  assert (any_trigger (lower (before ++ m ++ rest)%string) config = true)
    as Hc.
  { apply any_trigger_triggered. exists t. split; [exact Hin|].
    cbn [lower AsciiCase]. rewrite !ascii_lower_append.
    now apply occurs_in_longer. }
  destruct (@first_match_upto _ earlier later n config Hc)
    as (n' & Hn & Hor).
  exists n', earlier, config, later. rewrite Heq. repeat split; assumption.
Qed.

End AsciiRouter.

Module RouterExamples.

Import Orchestration Examples MoreExamples.

#[local] Existing Instance AsciiCase.

Lemma router_names_witness :
  _should_delegate assistant scenario_A = Some "calendar"
  /\ In "calendar" (map fst (sub_agents assistant))
  /\ (exists config, dict_get (sub_agents assistant) "calendar" = Some config)
  /\ (graph assistant = None -> has_node assistant "calendar").
Proof.
  split; [reflexivity|].
  apply (@router_names_registered_agent AsciiCase W Args assistant
           scenario_A "calendar").
  reflexivity.
Defined.


(** The phrase [event] inside [prevent]. *)
Lemma delegation_survives_witness :
  _should_delegate assistant "event" = Some "calendar"
  /\ exists n' earlier config later,
       _should_delegate assistant ("How do I pr" ++ "event" ++ " colds?")
       = Some n'
       /\ sub_agents assistant = earlier ++ ("calendar", config) :: later
       /\ (n' = "calendar" \/ In n' (map fst earlier)).
Proof.
  split; [reflexivity|].
  apply (@delegation_survives_more_text W Args assistant "event" "calendar"
           "How do I pr" " colds?").
  reflexivity.
Defined.

End RouterExamples.

(** ** More on the conversation state machine *)

Section Turns.

Context {Case : CaseOps}.
Variables (W Args : Type).

Import Orchestration.

Local Open Scope string_scope.

Local Abbreviation State := (OrchestrationState Args).
Local Abbreviation Orchestrator := (ConversationalOrchestrator W Args).

Lemma orchestrator_node_converses (self : Orchestrator) (state : State)
    (w : W) (text : string) :
  last (map Some (messages state)) None = Some (HumanMessage text) ->
  truthy (_should_delegate self text) = false ->
  orchestrator_node self state w
  = let (response, w') :=
      model_invoke (model self) (model_input self (messages state)) w in
    match response with
    | Returned response => (Returned (finished (as_message response)), w')
    | Raised e => (Raised e, w')
    end.
Proof.
  intros Hl Ht. unfold orchestrator_node, model_input. rewrite Hl.
  destruct (_should_delegate self text) as [d|]; [|reflexivity].
  now rewrite Ht.
Qed.

Lemma last_ai_answer (state : State) (text : string)
    (calls : list (ToolCall Args)) :
  last_ai (write state (finished (AIMessage text calls))) = text.
Proof.
  unfold last_ai, write, add_messages. cbn [messages finished].
  rewrite filter_app. cbn [filter isAIMessage].
  now rewrite last_snoc.
Qed.

Lemma checkpoint_save_same (self : Orchestrator) (thread_id : string)
    (state : State) :
  checkpoint (save self thread_id state) thread_id = state.
Proof.
  unfold checkpoint, save. cbn [memory]. now rewrite dict_get_set_same.
Qed.

Lemma checkpoint_save_other (self : Orchestrator)
    (thread_id other : string) (state : State) :
  other <> thread_id ->
  checkpoint (save self thread_id state) other = checkpoint self other.
Proof.
  intros Hne. unfold checkpoint, save. cbn [memory].
  now rewrite dict_get_set_other.
Qed.

(** When the router names no sub-agent for the message, or names one
    whose name is empty, the turn stays in [orchestrator]: the model is
    invoked once, on the stored history of the thread followed by the
    new message, and after the system prompt when that history has no
    system message; [chat] returns the text of its response, and raises
    what the model raises; no sub-agent is called. *)
Theorem direct_turn_answers_from_model (self : Orchestrator)
    (message thread_id : string) (w w' : W)
    (out : Outcome (Response Args)) :
  truthy (_should_delegate self message) = false ->
  let history :=
    (messages (checkpoint self thread_id) ++ [HumanMessage message])%list in
  model_invoke (model self) (model_input self history) w = (out, w') ->
  exists t,
    turn self message thread_id w = Some t
    /\ visited t = ["orchestrator"]
    /\ world_after t = w'
    /\ outcome t
       = match out with
         | Returned response =>
             Returned {| messages :=
                           (history ++ [as_message response])%list;
                         current_task := None;
                         delegated_to := None;
                         task_complete := true |}
         | Raised e => Raised e
         end
    /\ chat self message thread_id w = Some (direct_answer out, after t, w').
Proof.
  intros Ht history Hm.
  assert (forall self0 : Orchestrator,
             sub_agents self0 = sub_agents self ->
             model self0 = model self ->
             memory self0 = memory self ->
             forall nodes,
             exists t,
               graph_invoke self0 nodes (initial_state message) thread_id w
               = Some t
               /\ visited t = ["orchestrator"]
               /\ world_after t = w'
               /\ outcome t
                  = match out with
                    | Returned response =>
                        Returned
                          {| messages :=
                               (history ++ [as_message response])%list;
                             current_task := None;
                             delegated_to := None;
                             task_complete := true |}
                    | Raised e => Raised e
                    end) as Hg.
  { intros self0 Hs Hmo Hme nodes. unfold graph_invoke.
    set (state0 := write (checkpoint self0 thread_id) (initial_state message)).
    assert (messages state0 = history) as Hh.
    { unfold state0, history, checkpoint. now rewrite Hme. }
    rewrite (@orchestrator_node_converses self0 state0 w message).
    - rewrite Hh.
      assert (model_input self0 history = model_input self history) as ->.
      { unfold model_input, _get_system_prompt. now rewrite Hs. }
      rewrite Hmo, Hm. destruct out as [response|e].
      + eexists. split; [reflexivity|]. cbn [visited world_after outcome].
        split; [reflexivity|]. split; [reflexivity|].
        unfold write, add_messages. rewrite Hh. reflexivity.
      + eexists. split; [reflexivity|]. repeat split.
    - rewrite Hh. apply last_snoc.
    - unfold _should_delegate in *. now rewrite Hs. }
  assert (exists t,
             turn self message thread_id w = Some t
             /\ visited t = ["orchestrator"]
             /\ world_after t = w'
             /\ outcome t
                = match out with
                  | Returned response =>
                      Returned
                        {| messages :=
                             (history ++ [as_message response])%list;
                           current_task := None;
                           delegated_to := None;
                           task_complete := true |}
                  | Raised e => Raised e
                  end) as (t & Hturn & Hv & Hw & Ho).
  { unfold turn. destruct (graph self) as [nodes|] eqn:Hgr.
    - rewrite Hgr. now apply Hg.
    - now apply Hg. }
  exists t. repeat split; try assumption.
  unfold chat. rewrite Hturn, Ho, Hw.
  destruct out as [response|e]; [|reflexivity].
  unfold last_ai. cbn [messages]. rewrite filter_app.
  cbn [filter as_message isAIMessage]. now rewrite last_snoc.
Qed.

End Turns.

Section Threads.

Context {Case : CaseOps}.
Variables (W Args : Type).

Import Orchestration.

Local Open Scope string_scope.

Local Abbreviation State := (OrchestrationState Args).
Local Abbreviation Orchestrator := (ConversationalOrchestrator W Args).

Lemma orchestrator_node_update (self : Orchestrator) (state : State)
    (w w' : W) (update : State) :
  orchestrator_node self state w = (Returned update, w') ->
  (exists text d, update = delegating text d /\ truthy (Some d) = true)
  \/ (exists text calls, update = finished (AIMessage text calls)).
Proof.
  unfold orchestrator_node.
  destruct (last (map Some (messages state)) None) as [last_message|];
    [|discriminate].
  set (msgs := match filter (@isSystemMessage Args) (messages state) with
               | [] => _
               | _ :: _ => _
               end).
  assert (forall r,
             (let (response, w0) := model_invoke (model self) msgs w in
              match response with
              | Returned response =>
                  (Returned (finished (as_message response)), w0)
              | Raised e => (Raised e, w0)
              end) = r ->
             r = (Returned update, w') ->
             exists text calls, update = finished (AIMessage text calls))
    as Hconv.
  { intros r <-. destruct (model_invoke (model self) msgs w) as [[resp|e] w0];
      intros [= <- <-]. now exists (r_content resp), (r_tool_calls resp). }
  destruct last_message as [c|text|c tcs|c id];
    try (intros H; right; exact (Hconv _ eq_refl H)).
  destruct (_should_delegate self text) as [d|] eqn:Hd;
    [|intros H; right; exact (Hconv _ eq_refl H)].
  destruct (truthy (Some d)) eqn:Ht;
    [|intros H; right; exact (Hconv _ eq_refl H)].
  intros [= <- <-]. left. exists text, d. split; [reflexivity | exact Ht].
Qed.

Lemma delegation_node_update (self : Orchestrator) (agent_name : string)
    (state update : State) (w w' : W) :
  delegation_node self agent_name state w = Some (Returned update, w') ->
  exists text, update = finished (reply text).
Proof.
  unfold delegation_node.
  destruct (dict_get (sub_agents self) agent_name) as [config|];
    [|discriminate].
  destruct (agent config (current_task state) w) as [[[result|e] w0]|];
    [| |discriminate]; intros [= <- <-]; eexists; reflexivity.
Qed.

Ltac conjuncts := repeat match goal with |- _ /\ _ => split end.

Lemma graph_invoke_extends (self : Orchestrator) (nodes : list string)
    (message thread_id : string) (w : W) (t : Turn W Args) :
  graph_invoke self nodes (initial_state message) thread_id w = Some t ->
  sub_agents (after t) = sub_agents self
  /\ model (after t) = model self
  /\ graph (after t) = graph self
  /\ (forall other, other <> thread_id ->
      checkpoint (after t) other = checkpoint self other)
  /\ (forall st, outcome t = Returned st ->
      checkpoint (after t) thread_id = st
      /\ exists replies,
           messages st
           = (messages (checkpoint self thread_id)
              ++ HumanMessage message :: replies)%list
           /\ forallb (@isAIMessage Args) replies = true
           /\ (length replies = 1 \/ length replies = 2)).
Proof.
  unfold graph_invoke.
  set (state0 := write (checkpoint self thread_id) (initial_state message)).
  assert (forall s1 s2 : State,
             forall other, other <> thread_id ->
             checkpoint (save (save self thread_id s1) thread_id s2) other
             = checkpoint self other) as Hother2.
  { intros s1 s2 other Hne. now rewrite !checkpoint_save_other. }
  destruct (orchestrator_node self state0 w) as [[update|e] w1] eqn:Ho.
  2:{ intros [= <-]. cbn [after outcome]. conjuncts; try reflexivity.
      - intros other Hne. now apply checkpoint_save_other.
      - discriminate. }
  destruct (orchestrator_node_update _ _ _ Ho)
    as [(text & d & -> & Ht) | (text & calls & ->)].
  - rewrite should_continue_delegating by assumption.
    rewrite delegate_is_not_END.
    destruct (find _ nodes) as [agent_name|].
    2:{ intros [= <-]. cbn [after outcome]. conjuncts; try reflexivity.
        - intros other Hne. now apply checkpoint_save_other.
        - discriminate. }
    destruct (delegation_node self agent_name _ w1)
      as [[[update|e] w2]|] eqn:Hn; [| |discriminate].
    + destruct (delegation_node_update _ _ _ _ Hn) as [answer ->].
      intros [= <-]. cbn [after outcome]. conjuncts; try reflexivity.
      * intros other Hne. rewrite checkpoint_save_other by assumption.
        now apply Hother2.
      * intros st [= <-]. split; [apply checkpoint_save_same|].
        eexists. split.
        { unfold state0, write, add_messages.
          cbn [messages initial_state delegating finished].
          rewrite <- !app_assoc. cbn [app]. reflexivity. }
        split; [reflexivity | now right].
    + intros [= <-]. cbn [after outcome]. conjuncts; try reflexivity.
      * apply Hother2.
      * discriminate.
  - assert (should_continue (write state0 (finished (AIMessage text calls)))
            = END) as -> by reflexivity.
    rewrite String.eqb_refl.
    intros [= <-]. cbn [after outcome]. conjuncts; try reflexivity.
    + apply Hother2.
    + intros st [= <-]. split; [apply checkpoint_save_same|].
      exists [AIMessage text calls].
      split; [|split; [reflexivity | now left]].
      unfold state0, write, add_messages.
      cbn [messages initial_state finished].
      rewrite <- !app_assoc. reflexivity.
Qed.

Lemma turn_keeps_sub_agents (self : Orchestrator)
    (message thread_id : string) (w : W) (t : Turn W Args) :
  turn self message thread_id w = Some t ->
  sub_agents (after t) = sub_agents self.
Proof.
  unfold turn. intros H.
  destruct (graph self) as [nodes|] eqn:Hg.
  - rewrite Hg in H. exact (proj1 (graph_invoke_extends _ _ _ _ _ H)).
  - exact (proj1 (graph_invoke_extends _ _ _ _ _ H)).
Qed.

(** A turn of [chat] touches the history of its own thread only, and
    extends it: when the turn ends, the checkpoint of the thread is the
    state it ended in, whose messages are those stored before, the new
    human message, and one AI message (the direct answer) or two (the
    notice of the delegation and the answer of the sub-agent); the
    registered sub-agents and the model stay as they were. *)
Theorem turn_extends_its_thread (self : Orchestrator)
    (message thread_id : string) (w : W) (t : Turn W Args) :
  turn self message thread_id w = Some t ->
  sub_agents (after t) = sub_agents self
  /\ model (after t) = model self
  /\ (forall other, other <> thread_id ->
      checkpoint (after t) other = checkpoint self other)
  /\ (forall st, outcome t = Returned st ->
      checkpoint (after t) thread_id = st
      /\ exists replies,
           messages st
           = (messages (checkpoint self thread_id)
              ++ HumanMessage message :: replies)%list
           /\ forallb (@isAIMessage Args) replies = true
           /\ (length replies = 1 \/ length replies = 2)).
Proof.
  unfold turn. intros H.
  destruct (graph self) as [nodes|] eqn:Hg.
  - rewrite Hg in H.
    destruct (graph_invoke_extends _ _ _ _ _ H) as (H1 & H2 & _ & H4 & H5).
    conjuncts; assumption.
  - destruct (graph_invoke_extends _ _ _ _ _ H) as (H1 & H2 & _ & H4 & H5).
    conjuncts; assumption.
Qed.

End Threads.

Module TurnExamples.

Import Orchestration Examples MoreExamples.

#[local] Existing Instance AsciiCase.

Lemma direct_turn_witness :
  truthy (_should_delegate assistant scenario_B) = false
  /\ model_invoke (model assistant)
       (model_input assistant
          (messages (checkpoint assistant "default")
           ++ [HumanMessage scenario_B])) 0
     = (Returned {| r_content := "Paris."; r_tool_calls := [] |}, 0)
  /\ exists t,
       turn assistant scenario_B "default" 0 = Some t
       /\ visited t = ["orchestrator"]
       /\ chat assistant scenario_B "default" 0
          = Some (Returned "Paris.", after t, 0).
Proof.
  split; [reflexivity|]. split; [reflexivity|].
  destruct (@direct_turn_answers_from_model AsciiCase W Args assistant
              scenario_B "default" 0 0
              (Returned {| r_content := "Paris."; r_tool_calls := [] |})
              eq_refl eq_refl)
    as (t & Ht & Hv & _ & _ & Hc).
  exists t. repeat split; assumption.
Defined.

Lemma turn_extends_witness :
  exists t,
    turn assistant scenario_A "default" 0 = Some t
    /\ sub_agents (after t) = sub_agents assistant
    /\ (forall other, other <> "default" ->
        checkpoint (after t) other = checkpoint assistant other)
    /\ (forall st, outcome t = Returned st ->
        checkpoint (after t) "default" = st).
Proof.
  eexists. split; [reflexivity|].
  destruct (@turn_extends_its_thread AsciiCase W Args assistant scenario_A
              "default" 0 _ eq_refl) as (H1 & _ & H3 & H4).
  split; [exact H1|]. split; [exact H3|].
  intros st Hst. exact (proj1 (H4 st Hst)).
Defined.

End TurnExamples.

(** ** More on the Gmail label tool *)

Section LabelRequests.

Context {Case : CaseOps}.
Variables (R Payload : Type).
Variable service : GmailTools.Service R Payload.

Import GmailTools.

Local Open Scope string_scope.

Lemma get_label_id_requests (label : string) (g : Gmail R) :
  requests (snd (get_label_id service label g))
  = (requests g ++ [LabelsList])%list.
Proof.
  unfold get_label_id, execute.
  destruct (labels_list service (remote g)) as [[labels|e] r1]; reflexivity.
Qed.

Lemma get_label_id_found (label id : string) (g g' : Gmail R) :
  get_label_id service label g = (Some id, g') ->
  exists labels r1 found,
    labels_list service (remote g) = (Ok labels, r1)
    /\ In found labels
    /\ lower (l_name found) = lower label
    /\ l_id found = id.
Proof.
  unfold get_label_id, execute.
  destruct (labels_list service (remote g)) as [[labels|e] r1];
    [|discriminate].
  destruct (find _ labels) as [found|] eqn:Hf; [|discriminate].
  intros [= <- _]. apply find_some in Hf. destruct Hf as [Hin Heq].
  exists labels, r1, found. repeat split; try assumption.
  now apply String.eqb_eq.
Qed.

(** [apply_email_label] sends nothing, or the request for the list of
    labels alone, or that request and one modification after it; the
    modification is sent only for an allowed label, to the email that
    was named, and adds the id of a label of the mailbox whose name is
    the requested one up to case. *)
Theorem apply_label_sends_one_modification_at_most
    (self : GmailApplyLabelTool) (email_id label : string) (g : Gmail R) :
  let sent := requests (snd (apply_label_run service self email_id label g)) in
  sent = requests g
  \/ sent = (requests g ++ [LabelsList])%list
  \/ (exists labels r1 found,
         In (lower label) (map lower (allowed_labels self))
         /\ labels_list service (remote g) = (Ok labels, r1)
         /\ In found labels
         /\ lower (l_name found) = lower label
         /\ l_id found <> EmptyString
         /\ sent = (requests g
                    ++ [LabelsList;
                        MessagesModify email_id [l_id found]])%list).
Proof.
  intros sent. unfold sent, apply_label_run.
  destruct (not_allowed self label) eqn:Hna; [now left|].
  assert (In (lower label) (map lower (allowed_labels self))) as Hal.
  { destruct (in_dec string_dec (lower label)
                (map lower (allowed_labels self))) as [H|H]; [exact H|].
    apply not_allowed_iff in H. congruence. }
  pose proof (get_label_id_requests label g) as Hreq.
  destruct (get_label_id service label g) as [found g1] eqn:Hg.
  cbn [snd] in Hreq.
  destruct found as [id|]; [|right; left; exact Hreq].
  destruct id as [|c id]; [right; left; exact Hreq|].
  destruct (get_label_id_found _ _ Hg) as (labels & r1 & found & Hl & Hin & Hn & Hid).
  right. right. exists labels, r1, found.
  repeat split; try assumption.
  - rewrite Hid. discriminate.
  - unfold execute.
    destruct (messages_modify service email_id [String c id] (remote g1))
      as [[u|e] r2]; cbn [snd requests]; rewrite Hreq, Hid, <- app_assoc;
      reflexivity.
Qed.

End LabelRequests.

(** ** The Gmail search tool *)

Section Search.

Variable R : Type.
Variable service : GmailSearch.Service R.
Variable first_chars : nat -> string -> string.

Import GmailTools GmailSearch.

Local Open Scope string_scope.

Lemma append_empty_r (s : string) : s ++ EmptyString = s.
Proof.
  induction s as [|c s IH]; simpl; [reflexivity | now rewrite IH].
Qed.

Lemma describe_starts_with_id (i : nat) (id : string)
    (fetched : Result (list Header)) :
  exists rest,
    describe first_chars i id fetched
    = "Email " ++ str_of_nat (i + 1) ++ ": ID=" ++ id ++ rest.
Proof.
  destruct fetched as [headers|e]; unfold describe.
  - eexists. reflexivity.
  - exists EmptyString. now rewrite append_empty_r.
Qed.

Lemma describe_all_cons (i : nat) (id : string) (ids : list string)
    (g : Mailbox R) :
  describe_all service first_chars i (id :: ids) g
  = let (fetched, r1) := messages_get_metadata service id (remote g) in
    let (email_info, g2) :=
      describe_all service first_chars (S i) ids
        {| remote := r1; sent := (sent g ++ [GetMetadata id])%list |} in
    (describe first_chars i id fetched :: email_info, g2).
Proof.
  cbn [describe_all]. unfold execute.
  destruct (messages_get_metadata service id (remote g)); reflexivity.
Qed.

Lemma describe_all_spec (ids : list string) (i : nat) (g : Mailbox R) :
  sent (snd (describe_all service first_chars i ids g))
  = (sent g ++ map GetMetadata ids)%list
  /\ Forall2 (fun id line =>
                exists k rest,
                  line = "Email " ++ str_of_nat k ++ ": ID=" ++ id ++ rest)
             ids (fst (describe_all service first_chars i ids g)).
Proof.
  revert i g. induction ids as [|id ids IH]; intros i g.
  - cbn [describe_all snd fst map]. rewrite app_nil_r.
    split; [reflexivity | constructor].
  - rewrite describe_all_cons.
    destruct (messages_get_metadata service id (remote g)) as [fetched r1].
    specialize (IH (S i) {| remote := r1;
                            sent := (sent g ++ [GetMetadata id])%list |}).
    destruct (describe_all service first_chars (S i) ids _) as [lines g2].
    cbn [fst snd sent map] in *. destruct IH as [IH1 IH2]. split.
    + rewrite IH1, <- app_assoc. reflexivity.
    + constructor; [|exact IH2].
      destruct (describe_starts_with_id i id fetched) as [rest Hr].
      exists (i + 1), rest. exact Hr.
Qed.

(** [search_emails] sends the list request and then one metadata
    request for each of the first ten messages listed, in their order,
    whether the earlier ones could be fetched or not; it sends nothing
    else. *)
Theorem search_fetches_first_ten (query : string) (max_results : Z)
    (g : Mailbox R) :
  sent (snd (search_run service first_chars query max_results g))
  = (sent g
     ++ ListMessages query max_results
        :: match fst (messages_list service query max_results (remote g)) with
           | Ok ids => map GetMetadata (firstn 10 ids)
           | Fails _ => []
           end)%list.
Proof.
  unfold search_run, execute.
  destruct (messages_list service query max_results (remote g))
    as [[ids|e] r1]; cbn [fst]; [|reflexivity].
  destruct ids as [|m ms]; [reflexivity|].
  pose proof (describe_all_spec (firstn 10 (m :: ms)) 0
                {| remote := r1;
                   sent := (sent g ++ [ListMessages query max_results])%list |})
    as [Hs _].
  destruct (describe_all service first_chars 0 (firstn 10 (m :: ms)) _)
    as [lines g2].
  cbn [snd sent] in *. rewrite Hs, <- app_assoc. reflexivity.
Qed.

(** When the list request finds messages, the search succeeds whatever
    the metadata requests do: the text counts the messages found and
    those shown, at most ten, and has one entry for each message
    shown, in order, that starts with its number and its id. *)
Theorem search_shows_every_listed_id (query : string) (max_results : Z)
    (g : Mailbox R) (ids : list string) (r1 : R) :
  messages_list service query max_results (remote g) = (Ok ids, r1) ->
  ids <> [] ->
  exists entries,
    fst (search_run service first_chars query max_results g)
    = "Found " ++ str_of_nat (length ids) ++ " emails. Showing first "
      ++ str_of_nat (Nat.min 10 (length ids)) ++ ":" ++ nl
      ++ join nl entries ++ nl ++ nl
      ++ "Use the ID value (e.g., '18c7f8a5b2d3e4f5') with other tools."
    /\ Forall2 (fun id entry =>
                  exists k rest,
                    entry = "Email " ++ str_of_nat k ++ ": ID=" ++ id ++ rest)
               (firstn 10 ids) entries.
Proof.
  intros Hl Hne. unfold search_run, execute. rewrite Hl.
  destruct ids as [|m ms]; [congruence|].
  pose proof (describe_all_spec (firstn 10 (m :: ms)) 0
                {| remote := r1;
                   sent := (sent g ++ [ListMessages query max_results])%list |})
    as [_ Hf].
  destruct (describe_all service first_chars 0 (firstn 10 (m :: ms)) _)
    as [lines g2].
  cbn [fst] in *. exists lines. split; [|exact Hf].
  apply Forall2_length in Hf. rewrite <- Hf, length_firstn. reflexivity.
Qed.

End Search.

(** ** The calendar tools *)

Section Calendar.

Variables (R DateTime : Type).
Variable service : CalendarTools.Service R.
Variable strptime : string -> string -> Outcome DateTime.
Variables (hour minute : DateTime -> nat).
Variable strftime_date : DateTime -> string.
Variable localize_isoformat : string -> DateTime -> Outcome string.
Variable render : CalendarTools.Json -> string.

Import GmailTools CalendarTools Orchestration.

Local Open Scope string_scope.

Local Abbreviation parse :=
  (parse_datetime strptime hour minute strftime_date localize_isoformat).
Local Abbreviation create :=
  (create_run service strptime hour minute strftime_date localize_isoformat
     render).
Local Abbreviation update :=
  (update_run service strptime hour minute strftime_date localize_isoformat
     render).

(** [parse_datetime] raises only errors that name the string it was
    given; a string that no format parses is reported as such; an
    all-day [date] is returned only for a string without a colon, and
    then the time zone is not looked at; a timed result carries the
    time zone it was given. *)
Theorem parse_datetime_results (date_str timezone : string) :
  match parse date_str timezone with
  | Raised e =>
      exists why, e = "Error parsing datetime '" ++ date_str ++ "': " ++ why
  | Returned v =>
      (exists d, v = JObject [("date", JString d)]
                 /\ contains ":" date_str = false
                 /\ forall other, parse date_str other = Returned v)
      \/ (exists iso, v = JObject [("dateTime", JString iso);
                                   ("timeZone", JString timezone)])
  end
  /\ (first_format strptime date_str formats = None ->
      parse date_str timezone
      = Raised ("Error parsing datetime '" ++ date_str
                ++ "': Could not parse date: " ++ date_str)).
Proof.
  unfold parse_datetime.
  destruct (first_format strptime date_str formats) as [dt|].
  - split; [|discriminate].
    destruct (Nat.eqb (hour dt) 0 && Nat.eqb (minute dt) 0
              && negb (contains ":" date_str)) eqn:Hall.
    + left. exists (strftime_date dt). repeat split.
      apply andb_prop in Hall. destruct Hall as [_ Hc].
      now apply negb_true_iff in Hc.
    + destruct (localize_isoformat timezone dt) as [iso|e].
      * right. now exists iso.
      * now exists e.
  - split; [|reflexivity]. eexists. reflexivity.
Qed.

Lemma create_unparsed_start (summary start_time end_time : string)
    (description location : option string)
    (attendees : option (list string)) (timezone : option string)
    (g : Calendar R) (e : string) :
  parse start_time (match given timezone with
                    | Some tz => tz
                    | None => DEFAULT_TIMEZONE
                    end) = Raised e ->
  create summary start_time end_time description location attendees
         timezone g
  = ("Error in creating calendar event: " ++ e, g).
Proof.
  intros H. unfold create_run. now rewrite H.
Qed.

(** [create_calendar_event] inserts at most one event and nothing
    else, and inserts it only when both times were parsed, in the time
    zone given or in the default one: the body has the summary and the
    parsed times, and has a description or a location only when a
    non-empty one was given. *)
Theorem create_inserts_parsed_event_once (summary start_time end_time : string)
    (description location : option string)
    (attendees : option (list string)) (timezone : option string)
    (g : Calendar R) :
  let zone := match given timezone with
              | Some tz => tz
              | None => DEFAULT_TIMEZONE
              end in
  let after := snd (create summary start_time end_time description location
                           attendees timezone g) in
  sent after = sent g
  \/ (exists body start finish,
         sent after = (sent g ++ [EventsInsert body])%list
         /\ parse start_time zone = Returned start
         /\ parse end_time zone = Returned finish
         /\ dict_get body "summary" = Some (JString summary)
         /\ dict_get body "start" = Some start
         /\ dict_get body "end" = Some finish
         /\ dict_get body "description" = option_map JString (given description)
         /\ dict_get body "location" = option_map JString (given location)).
Proof.
  intros zone after. unfold after, create_run. fold zone.
  destruct (parse start_time zone) as [start|e]; [|now left].
  destruct (parse end_time zone) as [finish|e]; [|now left].
  right.
  set (e0 := [("summary", JString summary); ("start", start);
              ("end", finish)]).
  set (e1 := match given description with
             | Some d => dict_set e0 "description" (JString d)
             | None => e0
             end).
  set (e2 := match given location with
             | Some l => dict_set e1 "location" (JString l)
             | None => e1
             end).
  set (e3 := match attendees with
             | Some (a :: rest) => dict_set e2 "attendees" _
             | _ => e2
             end).
  exists e3, start, finish.
  assert (forall key, key <> "attendees" -> dict_get e3 key = dict_get e2 key)
    as H3.
  { intros key Hk. unfold e3. destruct attendees as [[|a rest]|];
      try reflexivity. now apply dict_get_set_other. }
  assert (forall key, key <> "location" -> dict_get e2 key = dict_get e1 key)
    as H2.
  { intros key Hk. unfold e2. destruct (given location);
      [now apply dict_get_set_other | reflexivity]. }
  assert (forall key, key <> "description" ->
                      dict_get e1 key = dict_get e0 key) as H1.
  { intros key Hk. unfold e1. destruct (given description);
      [now apply dict_get_set_other | reflexivity]. }
  split.
  { unfold execute. destruct (events_insert service e3 (remote g))
      as [[result|e] r1]; [|reflexivity].
    destruct (dict_get result "id"); reflexivity. }
  split; [reflexivity|]. split; [reflexivity|].
  split; [rewrite H3, H2, H1 by discriminate; reflexivity|].
  split; [rewrite H3, H2, H1 by discriminate; reflexivity|].
  split; [rewrite H3, H2, H1 by discriminate; reflexivity|].
  split.
  - rewrite H3, H2 by discriminate. unfold e1.
    destruct (given description) as [d|]; [apply dict_get_set_same|].
    reflexivity.
  - rewrite H3 by discriminate. unfold e2.
    destruct (given location) as [l|]; [apply dict_get_set_same|].
    rewrite H1 by discriminate. reflexivity.
Qed.



Lemma assign_same (key : string) (value : option Json) (event : EventDict) :
  dict_get (assign key value event) key
  = match value with
    | Some v => Some v
    | None => dict_get event key
    end.
Proof.
  destruct value as [v|]; [apply dict_get_set_same | reflexivity].
Qed.


(** When the event cannot be fetched, [update_calendar_event] sends no
    update: the fetch is its only request and the text is the one of
    [_handle_error]. *)
Theorem update_without_event_sends_nothing (event_id : string)
    (summary start_time end_time description location : option string)
    (timezone : string) (g : Calendar R) (e : Error) (r1 : R) :
  events_get service event_id (remote g) = (Fails e, r1) ->
  update event_id summary start_time end_time description location
         timezone g
  = (_handle_error e ("updating event " ++ event_id),
     {| remote := r1; sent := (sent g ++ [EventsGet event_id])%list |}).
Proof.
  intros Hg. unfold update_run, execute. now rewrite Hg.
Qed.

End Calendar.

Module ToolWorldExamples.

Import GmailTools ToolWorlds.

Lemma search_shows_witness :
  GmailSearch.messages_list found_three "is:unread" 10%Z
    (GmailSearch.remote outbox) = (Ok ["m1"; "m2"; "m3"], 0)
  /\ ["m1"; "m2"; "m3"] <> []
  /\ exists entries,
       fst (GmailSearch.search_run found_three first_bytes "is:unread" 10%Z
              outbox)
       = ("Found " ++ GmailSearch.str_of_nat 3 ++ " emails. Showing first "
          ++ GmailSearch.str_of_nat (Nat.min 10 3) ++ ":" ++ nl
          ++ join nl entries ++ nl ++ nl
          ++ "Use the ID value (e.g., '18c7f8a5b2d3e4f5') with other tools.")%string
       /\ Forall2 (fun id entry =>
                     exists k rest,
                       entry = ("Email " ++ GmailSearch.str_of_nat k
                                ++ ": ID=" ++ id ++ rest)%string)
                  (firstn 10 ["m1"; "m2"; "m3"]) entries.
Proof.
  split; [reflexivity|]. split; [discriminate|].
  apply (@search_shows_every_listed_id nat found_three first_bytes
           "is:unread" 10%Z outbox ["m1"; "m2"; "m3"] 0 eq_refl).
  discriminate.
Defined.

(** The second message could not be fetched and is listed all the
    same. *)
Lemma search_with_a_failed_fetch :
  fst (GmailSearch.search_run found_three first_bytes "is:unread" 10%Z outbox)
  = ("Found 3 emails. Showing first 3:" ++ nl
     ++ "Email 1: ID=m1 | From: ann@example.org... | Subject: Standup notes..."
     ++ nl ++ "Email 2: ID=m2" ++ nl
     ++ "Email 3: ID=m3 | From: ann@example.org... | Subject: Standup notes..."
     ++ nl ++ nl
     ++ "Use the ID value (e.g., '18c7f8a5b2d3e4f5') with other tools.")%string.
Proof. reflexivity. Qed.

Lemma parse_datetime_witness :
  CalendarTools.first_format toy_strptime "tomorrow" CalendarTools.formats
  = None
  /\ CalendarTools.parse_datetime toy_strptime at_hour at_minute day
       toy_localize "tomorrow" "UTC"
     = Raised "Error parsing datetime 'tomorrow': Could not parse date: tomorrow".
Proof.
  split; [reflexivity|].
  apply (proj2 (@parse_datetime_results Moment toy_strptime at_hour
                  at_minute day toy_localize "tomorrow" "UTC")).
  reflexivity.
Defined.



Lemma update_without_event_witness :
  CalendarTools.events_get one_event "gone" (CalendarTools.remote untouched)
  = (Fails (HttpError (Some 404) "<HttpError 404>"), 0)
  /\ CalendarTools.update_run one_event toy_strptime at_hour at_minute day
       toy_localize toy_render "gone" (Some "Retro"%string) None None None
       None "UTC" untouched
     = ("Error: Resource not found in updating event gone"%string,
        {| CalendarTools.remote := 0;
           CalendarTools.sent := [CalendarTools.EventsGet "gone"] |}).
Proof.
  split; [reflexivity|].
  apply (@update_without_event_sends_nothing nat Moment one_event
           toy_strptime at_hour at_minute day toy_localize toy_render "gone"
           (Some "Retro"%string) None None None None "UTC" untouched
           (HttpError (Some 404) "<HttpError 404>") 0 eq_refl).
Defined.

End ToolWorldExamples.

(** ** The interactive session *)

Section Session.

Context {Case : CaseOps}.
Variables (W Args : Type).
Variable strip : string -> string.

Import Orchestration ChatSession.

Local Abbreviation Orchestrator := (ConversationalOrchestrator W Args).
Local Abbreviation loop := (chat_loop (W:=W) (Args:=Args) strip).

Lemma graph_invoke_answers (self : Orchestrator) (nodes : list string)
    (initial : OrchestrationState Args) (thread_id : string) (w : W) :
  always_answer self ->
  graph_invoke self nodes initial thread_id w <> None.
Proof.
  intros Ha. unfold graph_invoke.
  destruct (orchestrator_node self _ w) as [[update|e] w1]; [|discriminate].
  destruct (String.eqb _ END); [discriminate|].
  destruct (find _ nodes) as [agent_name|]; [|discriminate].
  unfold delegation_node.
  destruct (dict_get (sub_agents self) agent_name) as [config|] eqn:Hc;
    [|discriminate].
  pose proof (Ha _ _ Hc (current_task (write (write (checkpoint self thread_id)
                                                initial) update)) w1) as Hn.
  destruct (agent config _ w1) as [[[result|e] w2]|];
    [discriminate | discriminate | congruence].
Qed.

Lemma chat_always_answers (self : Orchestrator) (message thread_id : string)
    (w : W) :
  always_answer self ->
  exists out self' w',
    chat self message thread_id w = Some (out, self', w')
    /\ always_answer self'.
Proof.
  intros Ha. unfold chat.
  destruct (turn self message thread_id w) as [t|] eqn:Ht.
  - assert (sub_agents (after t) = sub_agents self) as Hs
      by exact (turn_keeps_sub_agents _ _ _ _ Ht).
    assert (always_answer (after t)) as Ha'.
    { unfold always_answer. rewrite Hs. exact Ha. }
    destruct (outcome t) as [result|e]; eexists; eexists; eexists;
      (split; [reflexivity | exact Ha']).
  - exfalso. unfold turn in Ht.
    destruct (graph self) as [nodes|] eqn:Hg.
    + rewrite Hg in Ht. now apply graph_invoke_answers in Ht.
    + apply graph_invoke_answers in Ht; [exact Ht | exact Ha].
Qed.

(** One round of the loop on a line. *)
Lemma chat_loop_line (fuel : nat) (self : Orchestrator)
    (thread_id text : string) (rest : list Input) (w : W)
    (out : list string) :
  loop (S fuel) self thread_id (Line text :: rest) w out
  = if is_exit (strip text) then
      Some {| printed := (out ++ ["You: "%string]) ++ [goodbye];
              orchestrator := self;
              world_left := w;
              unread := rest |}
    else
      match strip text with
      | EmptyString =>
          loop fuel self thread_id rest w (out ++ ["You: "%string])
      | String _ _ =>
          match chat self (strip text) thread_id w with
          | None => None
          | Some (Returned response, self', w') =>
              loop fuel self' thread_id rest w'
                (((out ++ ["You: "%string]) ++ [(nl ++ "Bot: ")%string])
                 ++ [println response; println EmptyString])
          | Some (Raised e, self', w') =>
              loop fuel self' thread_id rest w'
                (((out ++ ["You: "%string]) ++ [(nl ++ "Bot: ")%string])
                 ++ apology e)
          end
      end.
Proof. reflexivity. Qed.

(** A session lives until a word that ends it is typed: when every
    sub-agent comes back, then whatever the lines typed before that
    are not such a word, and whatever [chat] raised on them, the loop
    reads on, and at the first line that is [exit], [quit], [bye] or
    [q] after [strip] and [lower] it prints the goodbye and returns,
    leaving exactly the input after that line unread. *)
Theorem session_ends_at_exit_word (lines : list string) (word : string)
    (rest : list Input) (extra : nat) (self : Orchestrator)
    (thread_id : string) (w : W) (out : list string) :
  always_answer self ->
  Forall (fun text => is_exit (strip text) = false) lines ->
  is_exit (strip word) = true ->
  exists s before,
    loop (S (length lines) + extra) self thread_id
      (map Line lines ++ Line word :: rest) w out = Some s
    /\ printed s = out ++ before ++ [goodbye]
    /\ unread s = rest
    /\ always_answer (orchestrator s).
Proof.
  intros Ha Hl He. revert self w out Ha.
  induction Hl as [|text lines Hx _ IH]; intros self w out Ha.
  - cbn [length map app plus]. rewrite chat_loop_line, He.
    eexists. exists ["You: "%string].
    cbn [printed unread orchestrator].
    split; [reflexivity|]. rewrite <- app_assoc. repeat split. exact Ha.
  - cbn [length map app plus]. rewrite chat_loop_line, Hx.
    cbn [length plus] in IH.
    destruct (strip text) as [|c user_input] eqn:Hs.
    + destruct (IH self w (out ++ ["You: "%string]) Ha)
        as (s & before & Hloop & Hp & Hr & Hs').
      exists s, ("You: "%string :: before).
      split; [exact Hloop|]. split; [|split; [exact Hr | exact Hs']].
      rewrite Hp, <- app_assoc. reflexivity.
    + destruct (chat_always_answers (String c user_input) thread_id w Ha)
        as (answer & self' & w' & Hc & Ha').
      rewrite Hc. destruct answer as [response|e].
      * destruct (IH self' w'
                    (((out ++ ["You: "%string])
                      ++ [(nl ++ "Bot: ")%string])
                     ++ [println response; println EmptyString]) Ha')
          as (s & before & Hloop & Hp & Hr & Hs').
        exists s.
        exists ("You: "%string :: (nl ++ "Bot: ")%string
                :: println response :: println EmptyString :: before).
        split; [exact Hloop|]. split; [|split; [exact Hr | exact Hs']].
        rewrite Hp, <- !app_assoc. reflexivity.
      * destruct (IH self' w'
                    (((out ++ ["You: "%string])
                      ++ [(nl ++ "Bot: ")%string])
                     ++ apology e) Ha')
          as (s & before & Hloop & Hp & Hr & Hs').
        exists s.
        exists ("You: "%string :: (nl ++ "Bot: ")%string
                :: apology e ++ before).
        split; [exact Hloop|]. split; [|split; [exact Hr | exact Hs']].
        rewrite Hp, <- !app_assoc. reflexivity.
Qed.

(** Without such a word, and without Ctrl-C, a session does not end:
    when the input is used up, [input] raises [EOFError], which the
    loop takes for an error of the turn and answers by reading
    again. *)
Theorem session_without_exit_word_never_ends (fuel : nat)
    (inputs : list Input) (self : Orchestrator) (thread_id : string)
    (w : W) (out : list string) :
  Forall (goes_on strip) inputs ->
  loop fuel self thread_id inputs w out = None.
Proof.
  revert inputs self w out.
  induction fuel as [|fuel IH]; intros inputs self w out Hin; [reflexivity|].
  destruct Hin as [|i rest (text & -> & Hx) Hrest].
  - cbn [chat_loop]. apply IH. constructor.
  - rewrite chat_loop_line, Hx. destruct (strip text) as [|c user_input].
    + now apply IH.
    + destruct (chat self (String c user_input) thread_id w)
        as [[[[response|e] self'] w']|]; [| |reflexivity]; now apply IH.
Qed.

(** Lines that are blank after [strip], and the word that ends the
    session, do not reach the orchestrator: the session leaves the
    orchestrator and the world as they were and prints one prompt for
    each line and the goodbye. *)
Theorem blank_lines_are_skipped (blanks : list string) (word : string)
    (rest : list Input) (extra : nat) (self : Orchestrator)
    (thread_id : string) (w : W) (out : list string) :
  Forall (fun text => strip text = EmptyString) blanks ->
  is_exit EmptyString = false ->
  is_exit (strip word) = true ->
  loop (S (length blanks) + extra) self thread_id
    (map Line blanks ++ Line word :: rest) w out
  = Some {| printed := out ++ repeat "You: "%string (S (length blanks))
                       ++ [goodbye];
            orchestrator := self;
            world_left := w;
            unread := rest |}.
Proof.
  intros Hb Hn He. revert out.
  induction Hb as [|text blanks Ht _ IH]; intros out.
  - cbn [length map app plus repeat]. rewrite chat_loop_line, He.
    now rewrite <- app_assoc.
  - cbn [length map app plus]. rewrite chat_loop_line, Ht, Hn.
    cbn [length plus] in IH. rewrite IH, <- app_assoc.
    reflexivity.
Qed.

End Session.

Module SessionExamples.

Import Orchestration ChatSession Examples SessionWorlds.

#[local] Existing Instance AsciiCase.

Lemma front_desk_always_answers : always_answer front_desk.
Proof.
  intros n config H task w.
  unfold front_desk, add_sub_agent, init in H.
  cbn [sub_agents dict_set dict_get] in H.
  destruct (String.eqb "gmail" n); [|discriminate].
  injection H as <-. intros Hn. discriminate Hn.
Qed.

(** A turn that fails, a blank line and a direct answer, then [Quit]
    between blanks, and two more lines, the first of them [exit]. *)
Lemma session_ends_witness :
  Forall (fun text => is_exit (ascii_strip text) = false)
    ["Draft an email"%string; "  "%string; "What's up?"%string]
  /\ is_exit (ascii_strip " Quit ") = true
  /\ exists s before,
       chat_loop ascii_strip 4 front_desk "default"
         (map Line ["Draft an email"; "  "; "What's up?"]
          ++ Line " Quit " :: [Line "exit"; Line "never read"]) 0 banner
       = Some s
       /\ printed s = banner ++ before ++ [goodbye]
       /\ unread s = [Line "exit"; Line "never read"]
       /\ always_answer (orchestrator s).
Proof.
  assert (Forall (fun text => is_exit (ascii_strip text) = false)
            ["Draft an email"%string; "  "%string; "What's up?"%string])
    as Hl by (repeat constructor).
  split; [exact Hl|]. split; [reflexivity|].
  apply (@session_ends_at_exit_word AsciiCase W Args ascii_strip
           ["Draft an email"; "  "; "What's up?"] " Quit "
           [Line "exit"; Line "never read"] 0 front_desk "default" 0 banner
           front_desk_always_answers Hl eq_refl).
Defined.

Lemma session_never_ends_witness :
  Forall (goes_on ascii_strip) [Line "hello"]
  /\ chat_loop ascii_strip 5 front_desk "default" [Line "hello"] 0 banner
     = None.
Proof.
  assert (Forall (goes_on ascii_strip) [Line "hello"]) as H.
  { constructor; [|constructor]. exists "hello"%string. split; reflexivity. }
  split; [exact H|].
  apply (@session_without_exit_word_never_ends AsciiCase W Args ascii_strip
           5 [Line "hello"] front_desk "default" 0 banner H).
Defined.

Lemma blank_lines_witness :
  Forall (fun text => ascii_strip text = EmptyString) ["  "%string; EmptyString]
  /\ is_exit EmptyString = false
  /\ is_exit (ascii_strip "q") = true
  /\ chat_loop ascii_strip 3 front_desk "default"
       (map Line ["  "%string; EmptyString] ++ Line "q" :: []) 0 banner
     = Some {| printed := banner ++ repeat "You: "%string 3 ++ [goodbye];
               orchestrator := front_desk;
               world_left := 0;
               unread := [] |}.
Proof.
  assert (Forall (fun text => ascii_strip text = EmptyString)
                 ["  "%string; EmptyString]) as H
    by (repeat constructor).
  split; [exact H|]. split; [reflexivity|]. split; [reflexivity|].
  apply (@blank_lines_are_skipped AsciiCase W Args ascii_strip
           ["  "%string; EmptyString] "q" [] 0 front_desk "default" 0 banner
           H eq_refl eq_refl).
Defined.

(** What the terminal shows for a turn that fails and a goodbye. *)
Lemma session_with_a_failed_turn :
  option_map (fun s => skipn 5 (printed s))
    (start_chat ascii_strip 2 front_desk "default"
       [Line "Draft an email"; Line "bye"] 0)
  = Some ["You: "%string;
          (nl ++ "Bot: ")%string;
          println "Error processing Gmail task: connection refused";
          println EmptyString;
          "You: "%string;
          goodbye].
Proof. reflexivity. Qed.

End SessionExamples.

Module RegistryExamples.

Import Orchestration Examples.

(** Registering [gmail] again replaces its agent and phrases and keeps
    it before [calendar]. *)
Lemma add_sub_agent_witness :
  dict_get (sub_agents assistant) "gmail" <> None
  /\ map fst (sub_agents (add_sub_agent assistant "gmail" unreachable
                            ["mail"%string]))
     = map fst (sub_agents assistant)
  /\ dict_get (sub_agents (add_sub_agent assistant "gmail" unreachable
                             ["mail"%string])) "gmail"
     = Some {| agent := unreachable; triggers := ["mail"%string] |}.
Proof.
  assert (dict_get (sub_agents assistant) "gmail" <> None) as H
    by discriminate.
  split; [exact H|].
  destruct (@add_sub_agent_registers W Args assistant "gmail" unreachable
              ["mail"%string]) as (H1 & _ & _ & H4 & _).
  split; [exact (H4 H) | exact H1].
Defined.

End RegistryExamples.

(** ** The transient fields at the end of a turn *)

Section TurnEnd.

Context {Case : CaseOps}.
Variables (W Args : Type).

Import Orchestration.

Local Abbreviation State := (OrchestrationState Args).
Local Abbreviation Orchestrator := (ConversationalOrchestrator W Args).

Lemma delegation_node_raises (self : Orchestrator) (agent_name : string)
    (state : State) (w w' : W) (e : string) :
  delegation_node self agent_name state w = Some (Raised e, w') ->
  dict_get (sub_agents self) agent_name = None.
Proof.
  unfold delegation_node.
  destruct (dict_get (sub_agents self) agent_name) as [config|];
    [|reflexivity].
  destruct (agent config (current_task state) w) as [[[result|e0] w0]|];
    discriminate.
Qed.

(** A turn that ends with an exception leaves the checkpoint taken
    after the input, when every node of the graph is a registered
    sub-agent. *)
Lemma graph_invoke_raised (self : Orchestrator) (nodes : list string)
    (initial : State) (thread_id : string) (w : W) (t : Turn W Args)
    (e : string) :
  (forall n, In n nodes -> dict_get (sub_agents self) n <> None) ->
  graph_invoke self nodes initial thread_id w = Some t ->
  outcome t = Raised e ->
  checkpoint (after t) thread_id = write (checkpoint self thread_id) initial.
Proof.
  intros Hreg. unfold graph_invoke.
  set (state0 := write (checkpoint self thread_id) initial).
  destruct (orchestrator_node self state0 w) as [[update|e0] w1].
  2:{ intros [= <-] _. apply checkpoint_save_same. }
  destruct (String.eqb _ END); [intros [= <-]; discriminate|].
  destruct (find _ nodes) as [agent_name|] eqn:Hf.
  2:{ intros [= <-] _. apply checkpoint_save_same. }
  apply find_some in Hf. destruct Hf as [Hin _].
  destruct (delegation_node self agent_name _ w1)
    as [[[update2|e2] w2]|] eqn:Hn; [| |discriminate].
  - intros [= <-]. discriminate.
  - apply delegation_node_raises in Hn. now apply Hreg in Hin.
Qed.

(** C10, as amended. A dict returned by [orchestrator_node] either is
    the one of the delegation branch, the only one with [delegated_to]
    set, or has [current_task] and [delegated_to] at [None] and
    [task_complete] at [True]; a delegation node returns such a dict
    whether the sub-agent returned or raised; so every turn that
    returns ends, and is stored, with the three fields cleared, and a
    turn that delegates returns whenever the sub-agent comes back.  A
    turn that ends with an exception, as when the model of the
    orchestrator raises, leaves [current_task] and [delegated_to] at
    [None] and [task_complete] at [False]. *)
Theorem transient_fields_at_end_of_turn (self : Orchestrator) :
  (forall (state update : State) (w w' : W),
      orchestrator_node self state w = (Returned update, w') ->
      (cleared update
       \/ exists text d,
            update = delegating text d
            /\ delegated_to update = Some d
            /\ _should_delegate self text = Some d))
  /\ (forall (state update : State) (w w' : W),
         orchestrator_node self state w = (Returned update, w') ->
         delegated_to update <> None ->
         exists text d,
           update = delegating text d
           /\ _should_delegate self text = Some d)
  /\ (forall (agent_name : string) (config : SubAgentConfig W)
             (state : State) (out : Outcome string) (w w' : W),
         dict_get (sub_agents self) agent_name = Some config ->
         agent config (current_task state) w = Some (out, w') ->
         exists update,
           delegation_node self agent_name state w
           = Some (Returned update, w')
           /\ cleared update)
  /\ (forall (agent_name : string) (state update : State) (w w' : W),
         delegation_node self agent_name state w
         = Some (Returned update, w') ->
         cleared update)
  /\ (forall (message thread_id : string) (w : W) (t : Turn W Args)
             (st : State),
         turn self message thread_id w = Some t ->
         outcome t = Returned st ->
         cleared st /\ checkpoint (after t) thread_id = st)
  /\ (forall (message thread_id name : string) (config : SubAgentConfig W)
             (out : Outcome string) (w w' : W),
         has_node self name ->
         _should_delegate self message = Some name ->
         name <> EmptyString ->
         dict_get (sub_agents self) name = Some config ->
         agent config (Some message) w = Some (out, w') ->
         exists t st,
           turn self message thread_id w = Some t
           /\ outcome t = Returned st
           /\ visited t = ["orchestrator"; ("delegate_" ++ name)%string]
           /\ cleared st)
  /\ ((forall n, has_node self n -> dict_get (sub_agents self) n <> None) ->
      forall (message thread_id : string) (w : W) (t : Turn W Args)
             (e : string),
        turn self message thread_id w = Some t ->
        outcome t = Raised e ->
        current_task (checkpoint (after t) thread_id) = None
        /\ delegated_to (checkpoint (after t) thread_id) = None
        /\ task_complete (checkpoint (after t) thread_id) = false).
Proof.
  repeat apply conj.
  - intros state update w w' Ho.
    destruct (orchestrator_node_returns _ _ _ Ho)
      as [(text & d & -> & _ & Hd & _ & _) | (m & ->)].
    + right. exists text, d. repeat split. exact Hd.
    + left. apply finished_cleared.
  - intros state update w w' Ho Hne.
    destruct (orchestrator_node_returns _ _ _ Ho)
      as [(text & d & -> & _ & Hd & _ & _) | (m & ->)].
    + exists text, d. split; [reflexivity | exact Hd].
    + now elim Hne.
  - intros agent_name config state out w w' Hc Ha.
    eexists. split.
    + eapply delegation_node_outcome; eassumption.
    + apply finished_cleared.
  - intros agent_name state update w w' Hn.
    destruct (delegation_node_returns _ _ _ _ Hn) as [m ->].
    apply finished_cleared.
  - intros message thread_id w t st Ht Ho. split.
    + exact (turn_cleared _ _ _ _ Ht Ho).
    + unfold turn in Ht. destruct (graph self) as [nodes|] eqn:Hg.
      * rewrite Hg in Ht.
        exact (proj1 (proj2 (proj2 (proj2 (proj2
                 (graph_invoke_extends _ _ _ _ _ Ht)))) st Ho)).
      * exact (proj1 (proj2 (proj2 (proj2 (proj2
                 (graph_invoke_extends _ _ _ _ _ Ht)))) st Ho)).
  - intros message thread_id name config out w w' Hn Hd Hne Hc Ha.
    apply truthy_Some in Hne.
    destruct (@turn_delegates Case W Args self message thread_id name
                config out w w' Hn Hd Hne Hc Ha)
      as (t & st & Ht & Ho & Hv & _ & Hcl & _).
    exists t, st. repeat split; try assumption; apply Hcl.
  - intros Hreg message thread_id w t e Ht Ho.
    assert (checkpoint (after t) thread_id
            = write (checkpoint self thread_id) (initial_state message))
      as ->; [|repeat split].
    unfold turn in Ht. unfold has_node in Hreg.
    destruct (graph self) as [nodes|] eqn:Hg.
    + rewrite Hg in Ht.
      exact (graph_invoke_raised _ _ _ _ _ Hreg Ht Ho).
    + apply (@graph_invoke_raised (build_graph self)
               (map fst (sub_agents self)) (initial_state message)
               thread_id w t e Hreg Ht Ho).
Qed.

End TurnEnd.

Module TurnEndExamples.

Import Orchestration Examples MoreExamples.

#[local] Existing Instance AsciiCase.

(** A turn that delegates: the calendar agent comes back and the turn
    ends cleared. *)
Lemma transient_fields_witness :
  has_node assistant "calendar"
  /\ _should_delegate assistant scenario_A = Some "calendar"
  /\ calendar_sub_agent (Some scenario_A) 0 = Some (Returned "Done.", 1)
  /\ exists t st,
       turn assistant scenario_A "default" 0 = Some t
       /\ outcome t = Returned st
       /\ visited t = ["orchestrator"; "delegate_calendar"]
       /\ cleared st.
Proof.
  assert (has_node assistant "calendar") as Hn
    by (unfold has_node; simpl; right; left; reflexivity).
  split; [exact Hn|]. split; [reflexivity|]. split; [reflexivity|].
  assert ("calendar"%string <> EmptyString) as Hne by discriminate.
  exact (proj1 (proj2 (proj2 (proj2 (proj2 (proj2
           (@transient_fields_at_end_of_turn AsciiCase W Args assistant))))))
           scenario_A "default" "calendar"
           {| agent := calendar_sub_agent; triggers := calendar_triggers |}
           (Returned "Done.") 0 1 Hn eq_refl Hne eq_refl eq_refl).
Defined.

(** C10 fails as stated: when the model of the orchestrator cannot be
    reached, the turn ends with its exception, and the state the
    thread is left in has [task_complete] at [False]. *)
Lemma failed_turn_is_not_complete :
  exists t,
    turn silent scenario_B "default" 0 = Some t
    /\ outcome t = Raised "connection refused"
    /\ task_complete (checkpoint (after t) "default") = false
    /\ ~ cleared (checkpoint (after t) "default").
Proof.
  eexists. split; [reflexivity|]. split; [reflexivity|].
  split; [reflexivity|]. intros (_ & _ & H). discriminate H.
Qed.

End TurnEndExamples.
